(** * gitlab_rss_mailer: the feed diff, the cache update and the mail run

    A shallow embedding of [gitlab_rss_mailer/__init__.py] and of the [main]
    function of [gitlab_rss_mailer/__main__.py].

    Python objects become records, a [dict] becomes an association list in
    insertion order, an exception becomes the [Raise] branch of [result], and
    the methods that touch the cache, the cache file, the SMTP server or the
    standard output run in a state-and-exception monad over [state].  What
    the libraries answer (feedparser, json, smtplib, email) is not in the
    repository and is gathered in the class [Externals]. *)

From Stdlib Require Import String Ascii ZArith List Lia.
From stdpp Require Import base option list strings gmap.

Open Scope string_scope.
Open Scope list_scope.

(** ** Exceptions and the pure error monad *)

Inductive exn : Type :=
  | KeyError (key : string)
  | AttributeError (attr : string)
  | ValueError
  | SMTPException
  | NetworkError
  | FileNotFoundError (path : string).

Inductive result (A : Type) : Type :=
  | Ok (a : A)
  | Raise (e : exn).
Arguments Ok {A} a.
Arguments Raise {A} e.

Definition rbind {A B} (r : result A) (k : A -> result B) : result B :=
  match r with
  | Ok a => k a
  | Raise e => Raise e
  end.

Declare Scope result_scope.
Delimit Scope result_scope with res.
Notation "'let?' x := r 'in' k" := (rbind r (fun x => k))
  (at level 10, x name, r at level 100, k at level 200) : result_scope.

Definition is_Ok {A} (r : result A) : Prop :=
  match r with Ok _ => True | Raise _ => False end.

(** ** Python values: strings, lists, dicts *)

(** The characters that cannot be written inside a string literal. *)
Definition nl : string := String (ascii_of_nat 10) EmptyString.
Definition dq : string := String (ascii_of_nat 34) EmptyString.

(** [x in l] on a Python list: the elements are compared with [x] from the
    left, and the scan stops at the first equal one. *)
Fixpoint list_contains (x : string) (l : list string) : bool :=
  match l with
  | [] => false
  | y :: l' => if String.eqb x y then true else list_contains x l'
  end.

(** The number of [==] comparisons the scan of [x in l] performs. *)
Fixpoint list_contains_cost (x : string) (l : list string) : nat :=
  match l with
  | [] => 0
  | y :: l' => if String.eqb x y then 1 else S (list_contains_cost x l')
  end.

(** A [dict] with [str] keys, in insertion order. *)
Definition dict (V : Type) : Type := list (string * V).

Module Dict.
Section Ops.
Context {V : Type}.

(** [d.get(k)] *)
Fixpoint get (d : dict V) (k : string) : option V :=
  match d with
  | [] => None
  | (k', v) :: d' => if String.eqb k' k then Some v else get d' k
  end.

(** [d.get(k, default)] *)
Definition get_default (d : dict V) (k : string) (default : V) : V :=
  match get d k with
  | Some v => v
  | None => default
  end.

(** [d[k]] *)
Definition getitem (d : dict V) (k : string) : result V :=
  match get d k with
  | Some v => Ok v
  | None => Raise (KeyError k)
  end.

(** [d[k] = v]: an existing key keeps its place, a new one goes last. *)
Fixpoint set (d : dict V) (k : string) (v : V) : dict V :=
  match d with
  | [] => [(k, v)]
  | (k', v') :: d' =>
      if String.eqb k' k then (k', v) :: d' else (k', v') :: set d' k v
  end.

Definition keys (d : dict V) : list string := map fst d.

(** [d.items()] *)
Definition items (d : dict V) : list (string * V) := d.
End Ops.
End Dict.

(** ** [class FeedEntry] *)

(** One entry as feedparser hands it over: a mapping from field names to
    strings. *)
Definition RawEntry : Type := dict string.

Module FeedEntry.
Record t : Type := mk { id : string; title : string; author : string; url : string }.

Definition from_raw_feed_entry (feed_entry : RawEntry) : result t :=
  (let? id := Dict.getitem feed_entry "id" in
   let? title := Dict.getitem feed_entry "title" in
   let? author := Dict.getitem feed_entry "author" in
   let? url := Dict.getitem feed_entry "link" in
   Ok (mk id title author url))%res.
End FeedEntry.

(** ** What the libraries answer *)

(** The calls made on [smtplib]: the two constructors, which connect, and
    the methods of the connection. *)
Inductive smtp_op : Type :=
  | smtplib_SMTP_SSL (host : string) (port : Z)
  | smtplib_SMTP (host : string) (port : Z)
  | conn_ehlo
  | conn_starttls
  | conn_login (username password : string)
  | conn_sendmail (from_addr to_addrs msg : string)
  | conn_quit.

(** What a run does to the outside, in the order it happens. *)
Inductive event : Type :=
  | FileWrite (path content : string)
  | Smtp (op : smtp_op)
  | Stdout (line : string).

(** The two parts of a [MIMEMultipart("alternative")] message, with its
    headers in the order they are set. *)
Record MIMEMultipart : Type := mkMIME {
  mime_subtype : string;
  mime_headers : list (string * string);
  mime_parts : list (string * string)
}.

(** The mapping of one feed in the configuration, read at the keys [title]
    and [urls]; a missing key is [None]. *)
Record RawFeedConfig : Type := mkRawFeedConfig {
  raw_title : option string;
  raw_urls : option (list string)
}.

(** The configuration document, read at the keys [smtp] and [feeds]. *)
Record YamlConfig : Type := mkYamlConfig {
  yaml_smtp : option (dict string);
  yaml_feeds : option (dict RawFeedConfig)
}.

(** [mapping[key]] on a key that the records above hold as an option. *)
Definition subscript {A} (field : option A) (key : string) : result A :=
  match field with
  | Some a => Ok a
  | None => Raise (KeyError key)
  end.

Class Externals : Type := {
  (** [yaml.safe_load] on the text of the configuration file *)
  yaml_safe_load : string -> result YamlConfig;
  (** [json.loads] on the text of the cache file *)
  json_loads : string -> result (dict (list string));
  (** [feedparser.parse(url)["entries"]] *)
  feedparser_parse : string -> result (list RawEntry);
  (** [json.dumps] on the cache mapping *)
  json_dumps : dict (list string) -> string;
  (** [int(s)] *)
  py_int : string -> result Z;
  (** [msg.as_string()] *)
  as_string : MIMEMultipart -> string;
  (** whether the server, after the events so far, accepts an operation *)
  smtp_accepts : list event -> smtp_op -> bool
}.

(** ** [class Feed] *)

Module Feed.
Record t : Type := mk { name : string; title : string; urls : list string }.

Definition from_config (name : string) (raw_config : RawFeedConfig) : result t :=
  (let? title := subscript (raw_title raw_config) "title" in
   let? urls := subscript (raw_urls raw_config) "urls" in
   Ok (mk name title urls))%res.

Section Methods.
Context `{Externals}.

Fixpoint fetch_raw_loop (urls : list string) (entries : list RawEntry)
  : result (list RawEntry) :=
  match urls with
  | [] => Ok entries
  | url :: urls' =>
      (let? parsed := feedparser_parse url in
       fetch_raw_loop urls' (entries ++ parsed))%res
  end.

Definition fetch_raw (self : t) : result (list RawEntry) :=
  fetch_raw_loop (urls self) [].

Fixpoint fetch_loop (known_ids : list string) (raw_entries : list RawEntry)
    (entries : list FeedEntry.t) : result (list FeedEntry.t) :=
  match raw_entries with
  | [] => Ok entries
  | raw_entry :: rest =>
      (let? entry := FeedEntry.from_raw_feed_entry raw_entry in
       if negb (list_contains (FeedEntry.id entry) known_ids)
       then fetch_loop known_ids rest (entries ++ [entry])
       else fetch_loop known_ids rest entries)%res
  end.

Definition fetch (self : t) (known_ids : list string) : result (list FeedEntry.t) :=
  (let? raw_entries := fetch_raw self in
   fetch_loop known_ids raw_entries [])%res.
End Methods.
End Feed.

(** ** [class MailConfig] *)

Module MailConfig.
Record t : Type := mk {
    smtp_host : string;
    smtp_port : string;
    smtp_protocol : string;
    smtp_username : string;
    smtp_password : string;
    email_from : string;
    email_to : string
  }.

Definition from_config (raw_config : dict string) : result t :=
  (let? host := Dict.getitem raw_config "host" in
   let? port := Dict.getitem raw_config "port" in
   let? protocol := Dict.getitem raw_config "protocol" in
   let? username := Dict.getitem raw_config "username" in
   let? password := Dict.getitem raw_config "password" in
   let? email_from := Dict.getitem raw_config "email_from" in
   let? email_to := Dict.getitem raw_config "email_to" in
   Ok (mk host port protocol username password email_from email_to))%res.
End MailConfig.

(** ** The state-and-exception monad

    A raised exception keeps the state reached so far: what was written or
    sent before the failure stays written and sent. *)

Definition M (S A : Type) : Type := S -> result A * S.

Definition ret {S A} (a : A) : M S A := fun s => (Ok a, s).

Definition bind {S A B} (m : M S A) (k : A -> M S B) : M S B :=
  fun s =>
    match m s with
    | (Ok a, s') => k a s'
    | (Raise e, s') => (Raise e, s')
    end.

Definition lift {S A} (r : result A) : M S A := fun s => (r, s).

Definition get_state {S} : M S S := fun s => (Ok s, s).

Definition modify {S} (f : S -> S) : M S unit := fun s => (Ok tt, f s).

Declare Scope monad_scope.
Delimit Scope monad_scope with M.
Notation "x <- m ;; k" := (bind m (fun x => k))
  (at level 100, m at next level, right associativity) : monad_scope.
Notation "m ;; k" := (bind m (fun _ => k))
  (at level 100, right associativity) : monad_scope.

(** [for x in l: acc = body(acc, x)], stopped by the first exception. *)
Fixpoint for_each {S A Acc} (body : Acc -> A -> M S Acc) (l : list A) (acc : Acc)
  : M S Acc :=
  match l with
  | [] => ret acc
  | x :: l' => (acc' <- body acc x ;; for_each body l' acc')%M
  end.

(** ** [class Runner] *)

Module Runner.
Record t : Type := mk {
    mail_config : MailConfig.t;
    feeds : list Feed.t;
    feeds_cache : dict (list string);
    feeds_cache_path : string
  }.

Definition with_feeds_cache (self : t) (c : dict (list string)) : t :=
  mk (mail_config self) (feeds self) c (feeds_cache_path self).

(** The runner object together with what lies outside the process: the
    files, and the trace of what the run has done so far. *)
Record state : Type := mkState {
    self : t;
    files : gmap string string;
    trace : list event
  }.

(** [self.feeds_cache[name] = ids] *)
Definition set_feeds_cache_item (name : string) (ids : list string) : M state unit :=
  modify (fun st =>
    mkState (with_feeds_cache (self st) (Dict.set (feeds_cache (self st)) name ids))
            (files st) (trace st)).

(** [path.write_text(content)]; the write itself is taken to succeed. *)
Definition write_text (path content : string) : M state unit :=
  modify (fun st =>
    mkState (self st) (<[path := content]> (files st))
            (trace st ++ [FileWrite path content])).

(** [print(line)] *)
Definition print (line : string) : M state unit :=
  modify (fun st => mkState (self st) (files st) (trace st ++ [Stdout line])).

(** [for entry in entries: feed_cache.append(entry.id)] *)
Fixpoint append_ids (entries : list FeedEntry.t) (feed_cache : list string)
  : list string :=
  match entries with
  | [] => feed_cache
  | entry :: entries' => append_ids entries' (feed_cache ++ [FeedEntry.id entry])
  end.

(** [get_feed_by_name]: the first feed of that name, or [None]. *)
Fixpoint get_feed_by_name_loop (feeds : list Feed.t) (feed_name : string)
  : option Feed.t :=
  match feeds with
  | [] => None
  | feed :: feeds' =>
      if String.eqb (Feed.name feed) feed_name then Some feed
      else get_feed_by_name_loop feeds' feed_name
  end.

Definition get_feed_by_name (self : t) (feed_name : string) : option Feed.t :=
  get_feed_by_name_loop (feeds self) feed_name.

(** [feed.title] where [feed] is an [Optional[Feed]]: on [None] the
    attribute access raises. *)
Definition feed_title (feed : option Feed.t) : result string :=
  match feed with
  | Some f => Ok (Feed.title f)
  | None => Raise (AttributeError "title")
  end.

(** The loop of [create_mail_text] over the entries, on the pair
    [(plain_text, html_text)]. *)
Fixpoint mail_text_loop (entries : list FeedEntry.t) (texts : string * string)
  : string * string :=
  match entries with
  | [] => texts
  | entry :: entries' =>
      let '(plain_text, html_text) := texts in
      let plain_text :=
        plain_text +:+ "- " +:+ dq +:+ FeedEntry.title entry +:+ dq +:+ " by "
          +:+ FeedEntry.author entry +:+ " (" +:+ FeedEntry.url entry +:+ ")" +:+ nl in
      let html_text :=
        html_text +:+ "<li>" +:+ dq +:+ "<a href=" +:+ dq +:+ FeedEntry.url entry
          +:+ dq +:+ ">" +:+ FeedEntry.title entry +:+ "</a>" +:+ dq +:+ " by "
          +:+ FeedEntry.author entry +:+ " (" +:+ FeedEntry.url entry +:+ ")</li>" +:+ nl in
      mail_text_loop entries' (plain_text, html_text)
  end.

Section Methods.
Context `{Externals}.

(** The loop of [__init__] over [yaml_config["feeds"].items()]. *)
Fixpoint init_feeds (items : list (string * RawFeedConfig)) (feeds : list Feed.t)
  : result (list Feed.t) :=
  match items with
  | [] => Ok feeds
  | (feed_name, raw_feed) :: items' =>
      (let? feed := Feed.from_config feed_name raw_feed in
       init_feeds items' (feeds ++ [feed]))%res
  end.

(** [path.read_text()] and [path.open()] followed by a read. *)
Definition read_text (files : gmap string string) (path : string) : result string :=
  match files !! path with
  | Some content => Ok content
  | None => Raise (FileNotFoundError path)
  end.

(** [Runner.__init__], on the files of the moment. *)
Definition init (files : gmap string string) (config_path feeds_cache_path : string)
  : result t :=
  (let? config_text := read_text files config_path in
   let? yaml_config := yaml_safe_load config_text in
   let? raw_smtp := subscript (yaml_smtp yaml_config) "smtp" in
   let? mail_config := MailConfig.from_config raw_smtp in
   let? raw_feeds := subscript (yaml_feeds yaml_config) "feeds" in
   let? feeds := init_feeds (Dict.items raw_feeds) [] in
   let? cache_text := read_text files feeds_cache_path in
   let? feeds_cache := json_loads cache_text in
   Ok (mk mail_config feeds feeds_cache feeds_cache_path))%res.

(** One turn of the loop of [fetch_all].  [feed_cache] is the list stored
    under [feed.name] when there is one (a list of its own for every key,
    as [json.loads] builds them) and a new empty list otherwise, so the
    appends at line 141 followed by the store at line 143 are the update
    written here. *)
Definition fetch_all_body (dry_run : bool) (result : dict (list FeedEntry.t))
    (feed : Feed.t) : M state (dict (list FeedEntry.t)) :=
  (st <- get_state ;;
   let feed_cache := Dict.get_default (feeds_cache (self st)) (Feed.name feed) [] in
   entries <- lift (Feed.fetch feed feed_cache) ;;
   let result := Dict.set result (Feed.name feed) entries in
   (if negb dry_run
    then set_feeds_cache_item (Feed.name feed) (append_ids entries feed_cache)
    else ret tt) ;;
   ret result)%M.

Definition fetch_all (dry_run : bool) : M state (dict (list FeedEntry.t)) :=
  (st <- get_state ;;
   result <- for_each (fetch_all_body dry_run) (feeds (self st)) [] ;;
   (if negb dry_run
    then st' <- get_state ;;
         write_text (feeds_cache_path (self st')) (json_dumps (feeds_cache (self st')))
    else ret tt) ;;
   ret result)%M.

Definition create_mail_text (self : t) (feed_name : string)
    (entries : list FeedEntry.t) : result string :=
  let feed := get_feed_by_name self feed_name in
  (let? subject_title := feed_title feed in
   let headers :=
     [ ("Subject", "[RSS Mailer] New entries for feed " +:+ subject_title);
       ("Reply-To", MailConfig.email_from (mail_config self));
       ("From", MailConfig.email_from (mail_config self));
       ("To", MailConfig.email_to (mail_config self));
       ("Auto-Submitted", "auto-generated");
       ("X-Auto-Response-Suppress", "All") ] in
   let plain_text := EmptyString in
   let html_text :=
     "<!DOCTYPE html PUBLIC " +:+ dq +:+ "-//W3C//DTD XHTML 1.0 Transitional//EN"
       +:+ dq +:+ " " +:+ dq
       +:+ "http://www.w3.org/TR/xhtml1/DTD/xhtml1-transitional.dtd" +:+ dq +:+ ">" in
   let html_text :=
     html_text +:+ "<html xmlns=" +:+ dq +:+ "http://www.w3.org/1999/xhtml" +:+ dq
       +:+ " lang=" +:+ dq +:+ "en" +:+ dq +:+ " xml:lang=" +:+ dq +:+ "en" +:+ dq
       +:+ ">" +:+ nl +:+ "<body>" +:+ nl in
   let html_text := html_text +:+ "<head>" +:+ nl in
   let html_text :=
     html_text +:+ "<meta content=" +:+ dq +:+ "text/html; charset=UTF-8" +:+ dq
       +:+ " http-equiv=" +:+ dq +:+ "Content-Type" +:+ dq +:+ " />" in
   let html_text := html_text +:+ "</head>" +:+ nl in
   let html_text := html_text +:+ "<body>" +:+ nl in
   let? plain_title := feed_title feed in
   let plain_text := plain_text +:+ "New entries for feed " +:+ plain_title +:+ nl in
   let? html_title := feed_title feed in
   let html_text :=
     html_text +:+ "<p>New entries for feed " +:+ html_title +:+ "</p>" +:+ nl in
   let html_text := html_text +:+ "<ul>" +:+ nl in
   let '(plain_text, html_text) := mail_text_loop entries (plain_text, html_text) in
   let html_text := html_text +:+ "</ul>" +:+ nl in
   let html_text := html_text +:+ nl +:+ "</body>" +:+ nl +:+ "</html>" +:+ nl in
   Ok (as_string
         (mkMIME "alternative" headers
            [("plain", plain_text); ("html", html_text)])))%res.

(** One call on [smtplib]: it raises when the server refuses, and is
    recorded in the trace when it goes through. *)
Definition smtp (op : smtp_op) : M state unit :=
  fun st =>
    if smtp_accepts (trace st) op
    then (Ok tt, mkState (self st) (files st) (trace st ++ [Smtp op]))
    else (Raise SMTPException, st).

Definition send_mails (mails : list string) : M state unit :=
  if Nat.eqb (length mails) 0 then ret tt
  else
    (st <- get_state ;;
     let cfg := mail_config (self st) in
     (if String.eqb (MailConfig.smtp_protocol cfg) "ssl"
      then port <- lift (py_int (MailConfig.smtp_port cfg)) ;;
           smtp (smtplib_SMTP_SSL (MailConfig.smtp_host cfg) port)
      else port <- lift (py_int (MailConfig.smtp_port cfg)) ;;
           smtp (smtplib_SMTP (MailConfig.smtp_host cfg) port)) ;;
     smtp conn_ehlo ;;
     (if String.eqb (MailConfig.smtp_protocol cfg) "tls"
      then smtp conn_starttls
      else ret tt) ;;
     smtp (conn_login (MailConfig.smtp_username cfg) (MailConfig.smtp_password cfg)) ;;
     for_each
       (fun (_ : unit) mail =>
          smtp (conn_sendmail (MailConfig.email_from cfg) (MailConfig.email_to cfg) mail))
       mails tt ;;
     smtp conn_quit)%M.
End Methods.
End Runner.

(** ** [main], from the line that calls [fetch_all] on *)

Section Main.
Context `{Externals}.

Definition main_body (dry_run : bool) (mail_reports : list string)
    (item : string * list FeedEntry.t) : M Runner.state (list string) :=
  let '(feed_name, entries) := item in
  if Nat.eqb (length entries) 0 then ret mail_reports
  else
    (st <- get_state ;;
     mail_report <- lift (Runner.create_mail_text (Runner.self st) feed_name entries) ;;
     if negb dry_run then ret (mail_reports ++ [mail_report])%list
     else
       Runner.print ("New mail report for " +:+ dq +:+ feed_name +:+ dq +:+ ":") ;;
       Runner.print mail_report ;;
       ret mail_reports)%M.

Definition main (dry_run : bool) : M Runner.state Z :=
  (new_entries <- Runner.fetch_all dry_run ;;
   mail_reports <- for_each (main_body dry_run) (Dict.items new_entries) [] ;;
   Runner.send_mails mail_reports ;;
   ret 0%Z)%M.
End Main.

(** * The vocabulary of the properties *)

(** The fetched entry list of a feed: every raw entry of every URL, in
    order, turned into a [FeedEntry]. *)
Fixpoint parse_entries (raw_entries : list RawEntry) : result (list FeedEntry.t) :=
  match raw_entries with
  | [] => Ok []
  | raw_entry :: rest =>
      (let? entry := FeedEntry.from_raw_feed_entry raw_entry in
       let? entries := parse_entries rest in
       Ok (entry :: entries))%res
  end.

Definition fetched_entries `{Externals} (feed : Feed.t) : result (list FeedEntry.t) :=
  (let? raw_entries := Feed.fetch_raw feed in parse_entries raw_entries)%res.

(** The entries whose id is not among the known ones, in their order. *)
Definition unseen (known_ids : list string) (entries : list FeedEntry.t)
  : list FeedEntry.t :=
  filter (fun entry => FeedEntry.id entry ∉ known_ids) entries.

(** The comparisons made by the membership tests of [Feed.fetch_loop]: one
    scan of [known_ids] for every raw entry reached. *)
Fixpoint fetch_loop_cost (known_ids : list string) (raw_entries : list RawEntry) : nat :=
  match raw_entries with
  | [] => 0
  | raw_entry :: rest =>
      match FeedEntry.from_raw_feed_entry raw_entry with
      | Ok entry =>
          list_contains_cost (FeedEntry.id entry) known_ids
          + fetch_loop_cost known_ids rest
      | Raise _ => 0
      end
  end.

(** A raw entry with the four fields, for building inputs. *)
Definition raw_entry_of (id title author link : string) : RawEntry :=
  [("id", id); ("title", title); ("author", author); ("link", link)].

(** The in-memory cache of a state, and the names of its feeds. *)
Definition cache_of (st : Runner.state) : dict (list string) :=
  Runner.feeds_cache (Runner.self st).

Definition feed_names (feeds : list Feed.t) : list string := Feed.name <$> feeds.

(** The identifiers cached for a feed, an absent key counting as no
    identifier. *)
Definition cached_ids (cache : dict (list string)) (feed : Feed.t) : list string :=
  Dict.get_default cache (Feed.name feed) [].

(** Fetching and parsing succeeds for every feed of the list. *)
Definition fetchable `{Externals} (feeds : list Feed.t) : Prop :=
  Forall (fun feed => is_Ok (fetched_entries feed)) feeds.

(** The state after one successful turn of the loop of [fetch_all]. *)
Definition step_state (dry_run : bool) (feed : Feed.t) (entries : list FeedEntry.t)
    (st : Runner.state) : Runner.state :=
  if dry_run then st
  else
    Runner.mkState
      (Runner.with_feeds_cache (Runner.self st)
         (Dict.set (cache_of st) (Feed.name feed)
            (Runner.append_ids entries (cached_ids (cache_of st) feed))))
      (Runner.files st) (Runner.trace st).

(** Two states that differ at most in the cache. *)
Definition same_outside (st st' : Runner.state) : Prop :=
  Runner.files st' = Runner.files st
  /\ Runner.trace st' = Runner.trace st
  /\ Runner.mail_config (Runner.self st') = Runner.mail_config (Runner.self st)
  /\ Runner.feeds (Runner.self st') = Runner.feeds (Runner.self st)
  /\ Runner.feeds_cache_path (Runner.self st') = Runner.feeds_cache_path (Runner.self st).

(** The state after the cache has been written to its file. *)
Definition persisted `{Externals} (st : Runner.state) : Runner.state :=
  Runner.mkState (Runner.self st)
    (<[Runner.feeds_cache_path (Runner.self st) := json_dumps (cache_of st)]>
       (Runner.files st))
    (Runner.trace st
       ++ [FileWrite (Runner.feeds_cache_path (Runner.self st)) (json_dumps (cache_of st))]).

(** ** The SMTP session *)

(** The calls [send_mails] makes for a non-empty list of mails: one
    connection, the greeting, the upgrade when the protocol asks for it, the
    login, one [sendmail] per mail in the order of the list, and [quit]. *)
Definition smtp_session (cfg : MailConfig.t) (port : Z) (mails : list string)
  : list smtp_op :=
  [ if String.eqb (MailConfig.smtp_protocol cfg) "ssl"
    then smtplib_SMTP_SSL (MailConfig.smtp_host cfg) port
    else smtplib_SMTP (MailConfig.smtp_host cfg) port;
    conn_ehlo ]
  ++ (if String.eqb (MailConfig.smtp_protocol cfg) "tls" then [conn_starttls] else [])
  ++ [ conn_login (MailConfig.smtp_username cfg) (MailConfig.smtp_password cfg) ]
  ++ (conn_sendmail (MailConfig.email_from cfg) (MailConfig.email_to cfg) <$> mails)
  ++ [ conn_quit ].

(** The number of connections a list of calls opens. *)
Fixpoint connections (ops : list smtp_op) : nat :=
  match ops with
  | [] => 0
  | (smtplib_SMTP_SSL _ _ | smtplib_SMTP _ _) :: ops' => S (connections ops')
  | _ :: ops' => connections ops'
  end.

(** The messages a list of calls sends, in order. *)
Fixpoint sent_mails (ops : list smtp_op) : list string :=
  match ops with
  | [] => []
  | conn_sendmail _ _ msg :: ops' => msg :: sent_mails ops'
  | _ :: ops' => sent_mails ops'
  end.

(** The server accepts every call of the list, one after the other. *)
Fixpoint accepted `{Externals} (trace : list event) (ops : list smtp_op) : bool :=
  match ops with
  | [] => true
  | op :: ops' => smtp_accepts trace op && accepted (trace ++ [Smtp op]) ops'
  end.

(** The calls of a list made in turn, up to the first refused one. *)
Definition exec_ops `{Externals} (ops : list smtp_op) : M Runner.state unit :=
  for_each (fun (_ : unit) op => Runner.smtp op) ops tt.

(** The state once the calls of a list have gone through. *)
Definition run_ops (ops : list smtp_op) (st : Runner.state) : Runner.state :=
  Runner.mkState (Runner.self st) (Runner.files st) (Runner.trace st ++ (Smtp <$> ops)).

(** ** A concrete installation

    Two feeds, [issues] with two identifiers already cached and [mrs] with
    no key in the cache; the issues feed now holds three entries and the
    other one none.  The server either accepts every call or refuses every
    call. *)

Definition demo_raw_entries : list RawEntry :=
  [ raw_entry_of "1" "Crash on start" "alice" "https://gitlab.example.org/i/1";
    raw_entry_of "2" "Typo in README" "bob" "https://gitlab.example.org/i/2";
    raw_entry_of "3" "Add dark mode" "carol" "https://gitlab.example.org/i/3" ].

Definition demo_entries : list FeedEntry.t :=
  [ FeedEntry.mk "1" "Crash on start" "alice" "https://gitlab.example.org/i/1";
    FeedEntry.mk "2" "Typo in README" "bob" "https://gitlab.example.org/i/2";
    FeedEntry.mk "3" "Add dark mode" "carol" "https://gitlab.example.org/i/3" ].

Definition demo_json_dumps (cache : dict (list string)) : string :=
  "{"
  +:+ String.concat ", "
        (map (fun item : string * list string =>
                dq +:+ fst item +:+ dq +:+ ": ["
                +:+ String.concat ", " (map (fun id => dq +:+ id +:+ dq) (snd item))
                +:+ "]")
             cache)
  +:+ "}".

Definition demo_as_string (msg : MIMEMultipart) : string :=
  String.concat nl
    (map (fun header : string * string => fst header +:+ ": " +:+ snd header)
         (mime_headers msg)
     ++ map snd (mime_parts msg)).

Definition demo_yaml_config : YamlConfig :=
  mkYamlConfig
    (Some [ ("host", "smtp.example.org"); ("port", "587"); ("protocol", "tls");
            ("username", "mailer"); ("password", "secret");
            ("email_from", "rss@example.org"); ("email_to", "dev@example.org") ])
    (Some [ ("issues",
             mkRawFeedConfig (Some "Issues")
               (Some ["https://gitlab.example.org/issues.atom"]));
            ("mrs",
             mkRawFeedConfig (Some "Merge requests")
               (Some ["https://gitlab.example.org/mrs.atom"])) ]).

Definition demo_externals (server_up : bool) : Externals :=
  {| yaml_safe_load _ := Ok demo_yaml_config;
     json_loads _ := Ok [("issues", ["1"; "2"])];
     feedparser_parse url :=
       if String.eqb url "https://gitlab.example.org/issues.atom"
       then Ok demo_raw_entries else Ok [];
     json_dumps := demo_json_dumps;
     py_int s := if String.eqb s "587" then Ok 587%Z else Raise ValueError;
     as_string := demo_as_string;
     smtp_accepts _ _ := server_up |}.

Definition demo_mail_config : MailConfig.t :=
  MailConfig.mk "smtp.example.org" "587" "tls" "mailer" "secret"
    "rss@example.org" "dev@example.org".

Definition demo_issues : Feed.t :=
  Feed.mk "issues" "Issues" ["https://gitlab.example.org/issues.atom"].

Definition demo_mrs : Feed.t :=
  Feed.mk "mrs" "Merge requests" ["https://gitlab.example.org/mrs.atom"].

Definition demo_runner : Runner.t :=
  Runner.mk demo_mail_config [demo_issues; demo_mrs] [("issues", ["1"; "2"])]
    "cache.json".

Definition demo_files : gmap string string :=
  <["config.yaml" := "smtp: ... feeds: ..."]>
    (<["cache.json" := "{issues: [1, 2]}"]> ∅).

Definition demo_state : Runner.state := Runner.mkState demo_runner demo_files [].

(** The same installation on its first run, with an empty cache. *)
Definition demo_fresh_state : Runner.state :=
  Runner.mkState
    (Runner.mk demo_mail_config [demo_issues; demo_mrs] [] "cache.json") demo_files [].

(** ** Further vocabulary *)

(** What feedparser answers for each URL of a list, in order, up to the
    first URL on which it raises. *)
Fixpoint parse_urls `{Externals} (urls : list string) : result (list (list RawEntry)) :=
  match urls with
  | [] => Ok []
  | url :: urls' =>
      (let? parsed := feedparser_parse url in
       let? rest := parse_urls urls' in
       Ok (parsed :: rest))%res
  end.

(** A feed agrees with an item of the [feeds] mapping of the configuration. *)
Definition feed_of_item (feed : Feed.t) (item : string * RawFeedConfig) : Prop :=
  Feed.name feed = fst item
  /\ raw_title (snd item) = Some (Feed.title feed)
  /\ raw_urls (snd item) = Some (Feed.urls feed).

(** Every list of the first cache is the beginning of the list the second
    cache holds under the same key. *)
Definition cache_extends (cache cache' : dict (list string)) : Prop :=
  forall k ids,
    Dict.get cache k = Some ids ->
    exists more, Dict.get cache' k = Some (ids ++ more).

(** Every feed of the list can be fetched and has nothing but entries whose
    identifier the cache already holds for it. *)
Definition nothing_new `{Externals} (cache : dict (list string)) (feeds : list Feed.t)
  : Prop :=
  forall feed, feed ∈ feeds ->
    exists fetched,
      fetched_entries feed = Ok fetched
      /\ forall entry, entry ∈ fetched -> FeedEntry.id entry ∈ cached_ids cache feed.

(** The installation at a moment when the source of the second feed cannot
    be reached. *)
Definition demo_broken_externals : Externals :=
  {| yaml_safe_load _ := Ok demo_yaml_config;
     json_loads _ := Ok [("issues", ["1"; "2"])];
     feedparser_parse url :=
       if String.eqb url "https://gitlab.example.org/issues.atom"
       then Ok demo_raw_entries else Raise NetworkError;
     json_dumps := demo_json_dumps;
     py_int s := if String.eqb s "587" then Ok 587%Z else Raise ValueError;
     as_string := demo_as_string;
     smtp_accepts _ _ := true |}.

(** The installation once the three issues are cached. *)
Definition demo_seen_state : Runner.state :=
  Runner.mkState
    (Runner.mk demo_mail_config [demo_issues; demo_mrs]
       [("issues", ["1"; "2"; "3"]); ("mrs", [])] "cache.json")
    demo_files [].








(** The state once lines have been printed. *)
Definition printed (lines : list string) (st : Runner.state) : Runner.state :=
  Runner.mkState (Runner.self st) (Runner.files st)
    (Runner.trace st ++ (Stdout <$> lines)).

(** * Properties *)

(** ** Lists and dicts *)

Lemma list_contains_spec (x : string) (l : list string) :
  list_contains x l = true <-> x ∈ l.
Proof.
  induction l as [|y l IH]; simpl.
  - split; [discriminate | intros Hin; inversion Hin].
  - destruct (String.eqb_spec x y) as [->|Hne].
    + split; [intros _; left | reflexivity].
    + rewrite IH. split; [intros Hin; right; exact Hin |].
      intros Hin. inversion Hin; subst; [congruence | assumption].
Qed.

Lemma list_contains_false (x : string) (l : list string) :
  list_contains x l = false <-> x ∉ l.
Proof.
  rewrite <- list_contains_spec. destruct (list_contains x l); split; congruence.
Qed.

Lemma list_contains_cost_le (x : string) (l : list string) :
  list_contains_cost x l <= length l.
Proof.
  induction l as [|y l IH]; simpl; [lia |].
  destruct (String.eqb x y); lia.
Qed.

Lemma list_contains_cost_absent (x : string) (l : list string) :
  x ∉ l -> list_contains_cost x l = length l.
Proof.
  induction l as [|y l IH]; simpl; intros Hnin; [reflexivity |].
  apply not_elem_of_cons in Hnin as [Hne Hnin].
  destruct (String.eqb_spec x y); [congruence |]. rewrite IH; auto.
Qed.

Module DictFacts.
Section Facts.
Context {V : Type}.
Implicit Types (d : dict V) (k : string) (v : V).

Lemma get_set_eq d k v : Dict.get (Dict.set d k v) k = Some v.
Proof.
  induction d as [|[k' v'] d IH]; simpl.
  - rewrite String.eqb_refl. reflexivity.
  - destruct (String.eqb_spec k' k) as [->|Hne]; simpl.
    + rewrite String.eqb_refl. reflexivity.
    + destruct (String.eqb_spec k' k); [congruence | exact IH].
Qed.

Lemma get_set_ne d k k' v : k <> k' -> Dict.get (Dict.set d k v) k' = Dict.get d k'.
Proof.
  intros Hne. induction d as [|[k0 v0] d IH]; simpl.
  - destruct (String.eqb_spec k k'); [congruence | reflexivity].
  - destruct (String.eqb_spec k0 k) as [->|Hne0]; simpl.
    + destruct (String.eqb_spec k k'); [congruence | reflexivity].
    + rewrite IH. reflexivity.
Qed.


Lemma get_set_is_Some d k k' v :
  is_Some (Dict.get d k') -> is_Some (Dict.get (Dict.set d k v) k').
Proof.
  intros Hsome. destruct (decide (k = k')) as [->|Hne].
  - rewrite get_set_eq. eexists; reflexivity.
  - rewrite get_set_ne; assumption.
Qed.

(** An assignment keeps the keys in place and puts a new key last. *)
Lemma keys_set d k v :
  Dict.keys (Dict.set d k v)
  = if decide (k ∈ Dict.keys d) then Dict.keys d else (Dict.keys d ++ [k])%list.
Proof.
  unfold Dict.keys. induction d as [|[k0 v0] d IH]; simpl.
  - destruct (decide (k ∈ [])) as [Hin|_]; [inversion Hin | reflexivity].
  - destruct (String.eqb_spec k0 k) as [->|Hne]; simpl.
    + destruct (decide (k ∈ k :: map fst d)) as [_|Hnin]; [reflexivity |].
      exfalso. apply Hnin. left.
    + rewrite IH. destruct (decide (k ∈ map fst d)) as [Hin|Hnin].
      * destruct (decide (k ∈ k0 :: map fst d)) as [_|Hnin']; [reflexivity |].
        exfalso. apply Hnin'. right. exact Hin.
      * destruct (decide (k ∈ k0 :: map fst d)) as [Hin'|_]; [| reflexivity].
        inversion Hin'; subst; [congruence | contradiction].
Qed.

Lemma set_NoDup d k v : NoDup (Dict.keys d) -> NoDup (Dict.keys (Dict.set d k v)).
Proof.
  intros Hnd. rewrite keys_set. destruct (decide (k ∈ Dict.keys d)); [exact Hnd |].
  apply NoDup_app. split; [exact Hnd |]. split.
  - intros x Hx Hin. apply list_elem_of_singleton in Hin. subst. contradiction.
  - apply NoDup_singleton.
Qed.
End Facts.
End DictFacts.

(** ** The diff of one feed *)

Section FeedFacts.
Context `{Externals}.

Lemma fetch_loop_eq (known_ids : list string) (raw_entries : list RawEntry) :
  forall entries,
    Feed.fetch_loop known_ids raw_entries entries
    = (let? fetched := parse_entries raw_entries in
       Ok (entries ++ unseen known_ids fetched)%list)%res.
Proof.
  induction raw_entries as [|raw rest IH]; intros entries; simpl.
  - rewrite app_nil_r. reflexivity.
  - destruct (FeedEntry.from_raw_feed_entry raw) as [entry|e]; simpl; [| reflexivity].
    destruct (list_contains (FeedEntry.id entry) known_ids) eqn:Hin; simpl;
      rewrite IH; destruct (parse_entries rest) as [fetched|e]; simpl;
      try reflexivity; unfold unseen.
    + apply list_contains_spec in Hin.
      rewrite filter_cons_False; [reflexivity | tauto].
    + apply list_contains_false in Hin.
      rewrite filter_cons_True by assumption.
      rewrite <- app_assoc. reflexivity.
Qed.

Lemma fetch_eq (feed : Feed.t) (known_ids : list string) :
  Feed.fetch feed known_ids
  = (let? fetched := fetched_entries feed in Ok (unseen known_ids fetched))%res.
Proof.
  unfold Feed.fetch, fetched_entries.
  destruct (Feed.fetch_raw feed) as [raws|e]; simpl; [| reflexivity].
  rewrite fetch_loop_eq. reflexivity.
Qed.
End FeedFacts.

(** C1. The diff of a feed fails exactly when fetching its entries does, and
    otherwise returns the fetched entries whose id is not a member of the
    cached list, each as often as it was fetched and in the order fetched. *)
Theorem fetch_returns_unseen_in_order `{Externals}
    (feed : Feed.t) (cached : list string) :
  Feed.fetch feed cached
  = (let? fetched := fetched_entries feed in
     Ok (filter (fun entry => FeedEntry.id entry ∉ cached) fetched))%res.
Proof.
  unfold Feed.fetch, fetched_entries.
  destruct (Feed.fetch_raw feed) as [raw_entries|e]; simpl; [| reflexivity].
  rewrite fetch_loop_eq.
  destruct (parse_entries raw_entries) as [fetched|e]; reflexivity.
Qed.

(** ** The constructor *)

Lemma init_feeds_names (items : list (string * RawFeedConfig)) :
  forall feeds feeds',
    Runner.init_feeds items feeds = Ok feeds' ->
    feed_names feeds' = feed_names feeds ++ Dict.keys items.
Proof.
  unfold feed_names, Dict.keys.
  induction items as [|[feed_name raw_feed] items IH]; intros feeds feeds' Hinit;
    simpl in Hinit.
  - inversion Hinit; subst. rewrite app_nil_r. reflexivity.
  - destruct (Feed.from_config feed_name raw_feed) as [feed|e] eqn:Hfeed;
      simpl in Hinit; [| discriminate].
    rewrite (IH _ _ Hinit), fmap_app, <- app_assoc. simpl.
    unfold Feed.from_config in Hfeed.
    destruct (raw_title raw_feed), (raw_urls raw_feed); simpl in Hfeed;
      try discriminate.
    inversion Hfeed; subst. reflexivity.
Qed.

(** The feeds of a constructed runner bear the keys of the [feeds] mapping of
    the configuration, which as the keys of one mapping are pairwise
    distinct. *)
Lemma init_feed_names_NoDup `{Externals}
    (files : gmap string string) (config_path feeds_cache_path : string)
    (runner : Runner.t) :
  (forall text yaml_config raw_feeds,
     yaml_safe_load text = Ok yaml_config ->
     yaml_feeds yaml_config = Some raw_feeds ->
     NoDup (Dict.keys raw_feeds)) ->
  Runner.init files config_path feeds_cache_path = Ok runner ->
  NoDup (feed_names (Runner.feeds runner)).
Proof.
  intros Hkeys Hinit. unfold Runner.init in Hinit.
  destruct (Runner.read_text files config_path) as [text|e]; simpl in Hinit;
    [| discriminate].
  destruct (yaml_safe_load text) as [yaml_config|e] eqn:Hload; simpl in Hinit;
    [| discriminate].
  destruct (subscript (yaml_smtp yaml_config) "smtp") as [raw_smtp|e]; simpl in Hinit;
    [| discriminate].
  destruct (MailConfig.from_config raw_smtp) as [mail_config|e]; simpl in Hinit;
    [| discriminate].
  destruct (yaml_feeds yaml_config) as [raw_feeds|] eqn:Hfeeds; simpl in Hinit;
    [| discriminate].
  destruct (Runner.init_feeds (Dict.items raw_feeds) []) as [feeds|e] eqn:Hloop;
    simpl in Hinit; [| discriminate].
  destruct (Runner.read_text files feeds_cache_path) as [cache_text|e]; simpl in Hinit;
    [| discriminate].
  destruct (json_loads cache_text) as [feeds_cache|e]; simpl in Hinit; [| discriminate].
  inversion Hinit; subst. simpl.
  rewrite (init_feeds_names _ _ _ Hloop). simpl.
  exact (Hkeys _ _ _ Hload Hfeeds).
Qed.

(** ** The loop of [fetch_all] *)

Lemma append_ids_eq (entries : list FeedEntry.t) :
  forall feed_cache,
    Runner.append_ids entries feed_cache = feed_cache ++ (FeedEntry.id <$> entries).
Proof.
  induction entries as [|entry entries IH]; intros feed_cache; simpl.
  - rewrite app_nil_r. reflexivity.
  - rewrite IH, <- app_assoc. reflexivity.
Qed.

Lemma same_outside_refl (st : Runner.state) : same_outside st st.
Proof. repeat split. Qed.

Lemma same_outside_trans (st1 st2 st3 : Runner.state) :
  same_outside st1 st2 -> same_outside st2 st3 -> same_outside st1 st3.
Proof.
  unfold same_outside. intros (?&?&?&?&?) (?&?&?&?&?). repeat split; congruence.
Qed.

Lemma step_state_outside dry_run feed entries st :
  same_outside st (step_state dry_run feed entries st).
Proof. destruct dry_run; repeat split. Qed.

Lemma step_state_cache_same feed entries st k :
  k <> Feed.name feed ->
  Dict.get (cache_of (step_state false feed entries st)) k = Dict.get (cache_of st) k.
Proof.
  intros Hne. unfold step_state, cache_of, Runner.with_feeds_cache.
  cbn [Runner.self Runner.feeds_cache]. apply DictFacts.get_set_ne. congruence.
Qed.

Lemma step_state_cache_feed feed entries st :
  Dict.get (cache_of (step_state false feed entries st)) (Feed.name feed)
  = Some (cached_ids (cache_of st) feed ++ (FeedEntry.id <$> entries)).
Proof.
  unfold step_state, cache_of, Runner.with_feeds_cache.
  cbn [Runner.self Runner.feeds_cache].
  rewrite DictFacts.get_set_eq, append_ids_eq. reflexivity.
Qed.

Section LoopFacts.
Context `{Externals}.

Lemma fetch_all_body_eq dry_run result feed st :
  Runner.fetch_all_body dry_run result feed st
  = match Feed.fetch feed (cached_ids (cache_of st) feed) with
    | Ok entries =>
        (Ok (Dict.set result (Feed.name feed) entries),
         step_state dry_run feed entries st)
    | Raise e => (Raise e, st)
    end.
Proof.
  unfold Runner.fetch_all_body, bind, get_state, lift, cached_ids, cache_of.
  destruct (Feed.fetch feed _) as [entries|e]; [| reflexivity].
  destruct dry_run; reflexivity.
Qed.

(** Whatever the outcome, the loop touches nothing but the cache, and in a
    dry run not even that. *)
Lemma loop_outside dry_run feeds :
  forall result st r st',
    for_each (Runner.fetch_all_body dry_run) feeds result st = (r, st') ->
    same_outside st st' /\ (dry_run = true -> st' = st).
Proof.
  induction feeds as [|feed feeds IH]; intros result st r st' Hrun; simpl in Hrun.
  - inversion Hrun; subst. split; [apply same_outside_refl | reflexivity].
  - unfold bind in Hrun. rewrite fetch_all_body_eq in Hrun.
    destruct (Feed.fetch feed _) as [entries|e].
    + apply IH in Hrun as [Hout Hdry]. split.
      * eapply same_outside_trans; [apply step_state_outside | exact Hout].
      * intros ->. rewrite (Hdry eq_refl). reflexivity.
    + inversion Hrun; subst. split; [apply same_outside_refl | reflexivity].
Qed.

(** The loop succeeds when every feed can be fetched. *)
Lemma loop_total dry_run feeds :
  fetchable feeds ->
  forall result st, exists result' st',
    for_each (Runner.fetch_all_body dry_run) feeds result st = (Ok result', st').
Proof.
  induction 1 as [|feed feeds Hfeed _ IH]; intros result st; simpl.
  - eexists _, _. reflexivity.
  - unfold bind. rewrite fetch_all_body_eq, fetch_eq.
    destruct (fetched_entries feed) as [fetched|e]; [| contradiction]. simpl.
    apply IH.
Qed.

(** Keys are only ever added, to the result and to the cache, and every feed
    of the loop gets its key. *)
Lemma loop_keys dry_run feeds :
  forall result st result' st',
    for_each (Runner.fetch_all_body dry_run) feeds result st = (Ok result', st') ->
    (forall k, is_Some (Dict.get result k) -> is_Some (Dict.get result' k))
    /\ (forall k, is_Some (Dict.get (cache_of st) k) -> is_Some (Dict.get (cache_of st') k))
    /\ (forall feed, feed ∈ feeds ->
          is_Some (Dict.get result' (Feed.name feed))
          /\ (dry_run = false -> is_Some (Dict.get (cache_of st') (Feed.name feed)))).
Proof.
  induction feeds as [|feed feeds IH]; intros result st result' st' Hrun; simpl in Hrun.
  - inversion Hrun; subst. split; [auto | split; [auto |]].
    intros f Hf. inversion Hf.
  - unfold bind in Hrun. rewrite fetch_all_body_eq in Hrun.
    destruct (Feed.fetch feed _) as [entries|e]; [| discriminate].
    apply IH in Hrun as (Hres & Hcache & Hfeeds).
    assert (Hstep : forall k, is_Some (Dict.get (cache_of st) k) ->
                      is_Some (Dict.get (cache_of (step_state dry_run feed entries st)) k)).
    { intros k Hk. destruct dry_run; [exact Hk |].
      unfold step_state, cache_of, Runner.with_feeds_cache.
      cbn [Runner.self Runner.feeds_cache].
      apply DictFacts.get_set_is_Some. exact Hk. }
    split; [| split].
    + intros k Hk. apply Hres, DictFacts.get_set_is_Some, Hk.
    + intros k Hk. apply Hcache, Hstep, Hk.
    + intros f Hf. apply elem_of_cons in Hf as [->|Hf]; [| apply Hfeeds, Hf].
      split.
      * apply Hres. rewrite DictFacts.get_set_eq. eexists; reflexivity.
      * intros ->. apply Hcache. rewrite step_state_cache_feed. eexists; reflexivity.
Qed.
Lemma step_cached_ids_other dry_run feed entries st other :
  Feed.name other <> Feed.name feed ->
  cached_ids (cache_of (step_state dry_run feed entries st)) other
  = cached_ids (cache_of st) other.
Proof.
  intros Hne. destruct dry_run; [reflexivity |].
  unfold cached_ids, Dict.get_default.
  rewrite step_state_cache_same by assumption. reflexivity.
Qed.

(** With pairwise distinct feed names, every feed is diffed against the
    list the cache held for it before the loop, and only its own key
    changes. *)
Lemma loop_values dry_run feeds :
  forall result st result' st',
    NoDup (feed_names feeds) ->
    for_each (Runner.fetch_all_body dry_run) feeds result st = (Ok result', st') ->
    (forall k, k ∉ feed_names feeds ->
       Dict.get result' k = Dict.get result k
       /\ Dict.get (cache_of st') k = Dict.get (cache_of st) k)
    /\ (forall feed, feed ∈ feeds ->
          exists fetched,
            fetched_entries feed = Ok fetched
            /\ Dict.get result' (Feed.name feed)
               = Some (unseen (cached_ids (cache_of st) feed) fetched)
            /\ (dry_run = false ->
                Dict.get (cache_of st') (Feed.name feed)
                = Some (cached_ids (cache_of st) feed
                        ++ (FeedEntry.id <$> unseen (cached_ids (cache_of st) feed) fetched)))).
Proof.
  induction feeds as [|feed feeds IH]; intros result st result' st' Hnd Hrun;
    simpl in Hrun.
  - inversion Hrun; subst. split; [auto |]. intros f Hf. inversion Hf.
  - unfold bind in Hrun. rewrite fetch_all_body_eq, fetch_eq in Hrun.
    destruct (fetched_entries feed) as [fetched|e] eqn:Hfetched; simpl in Hrun;
      [| discriminate].
    unfold feed_names in Hnd. rewrite fmap_cons in Hnd.
    apply NoDup_cons in Hnd as [Hfresh Hnd].
    destruct (IH _ _ _ _ Hnd Hrun) as [Hother Hfeeds].
    set (entries := unseen (cached_ids (cache_of st) feed) fetched) in *.
    split.
    + intros k Hk. unfold feed_names in Hk. rewrite fmap_cons in Hk.
      apply not_elem_of_cons in Hk as [Hne Hk].
      destruct (Hother k Hk) as [-> ->]. split.
      * apply DictFacts.get_set_ne. congruence.
      * destruct dry_run; [reflexivity |]. apply step_state_cache_same. exact Hne.
    + intros f Hf. apply elem_of_cons in Hf as [->|Hf].
      * exists fetched. destruct (Hother _ Hfresh) as [-> ->].
        split; [exact Hfetched |]. split; [apply DictFacts.get_set_eq |].
        intros ->. apply step_state_cache_feed.
      * assert (Hne : Feed.name f <> Feed.name feed).
        { intros Heq. apply Hfresh. rewrite <- Heq.
          apply list_elem_of_fmap. exists f. split; [reflexivity | exact Hf]. }
        destruct (Hfeeds f Hf) as (fetched' & Hf1 & Hf2 & Hf3).
        rewrite step_cached_ids_other in Hf2, Hf3 by exact Hne.
        exists fetched'. auto.
Qed.

(** A dry loop and a real one that start from caches agreeing on the feeds
    still to come give the same result, or raise the same exception. *)
Lemma loop_dry_agrees feeds :
  forall result st_dry st,
    NoDup (feed_names feeds) ->
    (forall feed, feed ∈ feeds ->
       cached_ids (cache_of st_dry) feed = cached_ids (cache_of st) feed) ->
    fst (for_each (Runner.fetch_all_body true) feeds result st_dry)
    = fst (for_each (Runner.fetch_all_body false) feeds result st).
Proof.
  induction feeds as [|feed feeds IH]; intros result st_dry st Hnd Hagree; simpl.
  - reflexivity.
  - unfold bind. rewrite !fetch_all_body_eq.
    rewrite (Hagree feed) by left.
    destruct (Feed.fetch feed _) as [entries|e]; [| reflexivity].
    unfold feed_names in Hnd. rewrite fmap_cons in Hnd.
    apply NoDup_cons in Hnd as [Hfresh Hnd].
    apply IH; [exact Hnd |]. intros f Hf.
    assert (Hne : Feed.name f <> Feed.name feed).
    { intros Heq. apply Hfresh. rewrite <- Heq.
      apply list_elem_of_fmap. exists f. split; [reflexivity | exact Hf]. }
    rewrite !step_cached_ids_other by exact Hne. apply Hagree. right. exact Hf.
Qed.

(** In a real run the identifiers of the entries held by the result are in
    the cache, under the same key, whatever the names of the feeds. *)
Lemma loop_new_ids_cached feeds :
  forall result st result' st',
    for_each (Runner.fetch_all_body false) feeds result st = (Ok result', st') ->
    (forall k entries entry,
       Dict.get result k = Some entries -> entry ∈ entries ->
       FeedEntry.id entry ∈ Dict.get_default (cache_of st) k []) ->
    forall k entries entry,
      Dict.get result' k = Some entries -> entry ∈ entries ->
      FeedEntry.id entry ∈ Dict.get_default (cache_of st') k [].
Proof.
  induction feeds as [|feed feeds IH]; intros result st result' st' Hrun Hinv;
    simpl in Hrun.
  - inversion Hrun; subst. exact Hinv.
  - unfold bind in Hrun. rewrite fetch_all_body_eq in Hrun.
    destruct (Feed.fetch feed _) as [new_entries|e]; [| discriminate].
    apply (IH _ _ _ _ Hrun). intros k entries entry Hget Hentry.
    unfold Dict.get_default.
    destruct (decide (k = Feed.name feed)) as [->|Hne].
    + rewrite DictFacts.get_set_eq in Hget. injection Hget as <-.
      rewrite step_state_cache_feed. apply elem_of_app. right.
      apply list_elem_of_fmap. exists entry. split; [reflexivity | exact Hentry].
    + rewrite DictFacts.get_set_ne in Hget by congruence.
      rewrite step_state_cache_same by exact Hne.
      exact (Hinv k entries entry Hget Hentry).
Qed.

(** [fetch_all] is its loop, followed in a real run by the write of the
    cache file. *)
Lemma fetch_all_eq dry_run st :
  Runner.fetch_all dry_run st
  = match for_each (Runner.fetch_all_body dry_run) (Runner.feeds (Runner.self st)) [] st with
    | (Ok result, st1) => (Ok result, if dry_run then st1 else persisted st1)
    | (Raise e, st1) => (Raise e, st1)
    end.
Proof.
  unfold Runner.fetch_all, bind, get_state.
  destruct (for_each _ _ _ _) as [[result|e] st1]; [| reflexivity].
  destruct dry_run; reflexivity.
Qed.
End LoopFacts.

(** ** [fetch_all] *)

Section FetchAllFacts.
Context `{Externals}.

Lemma fetch_all_fst dry_run st :
  fst (Runner.fetch_all dry_run st)
  = fst (for_each (Runner.fetch_all_body dry_run) (Runner.feeds (Runner.self st)) [] st).
Proof.
  rewrite fetch_all_eq. destruct (for_each _ _ _ _) as [[result|e] st1]; reflexivity.
Qed.

Lemma fetch_all_ok dry_run st :
  fetchable (Runner.feeds (Runner.self st)) ->
  exists result st1,
    for_each (Runner.fetch_all_body dry_run) (Runner.feeds (Runner.self st)) [] st
    = (Ok result, st1)
    /\ Runner.fetch_all dry_run st
       = (Ok result, if dry_run then st1 else persisted st1).
Proof.
  intros Hfetch. destruct (loop_total dry_run _ Hfetch [] st) as (result & st1 & Hloop).
  exists result, st1. split; [exact Hloop |]. rewrite fetch_all_eq, Hloop. reflexivity.
Qed.

Lemma unseen_nil (entries : list FeedEntry.t) : unseen [] entries = entries.
Proof.
  unfold unseen. induction entries as [|entry entries IH]; [reflexivity |].
  rewrite filter_cons_True by apply not_elem_of_nil. rewrite IH. reflexivity.
Qed.

Lemma cached_ids_absent cache feed :
  Dict.get cache (Feed.name feed) = None -> cached_ids cache feed = [].
Proof. intros Hnone. unfold cached_ids, Dict.get_default. rewrite Hnone. reflexivity. Qed.
End FetchAllFacts.

(** C3. A dry run of [fetch_all] returns what the real run returns from the
    same state (the same mapping, or the same exception), and ends in the
    state it started from: the cache mapping is the one of before, no file
    has been written and the trace has no new event.  The feed names are
    pairwise distinct, as they are the keys of one mapping of the
    configuration. *)
Theorem dry_run_same_result_state_untouched `{Externals} (st : Runner.state) :
  NoDup (feed_names (Runner.feeds (Runner.self st))) ->
  fst (Runner.fetch_all true st) = fst (Runner.fetch_all false st)
  /\ snd (Runner.fetch_all true st) = st.
Proof.
  intros Hnd. split.
  - rewrite !fetch_all_fst. apply loop_dry_agrees; [exact Hnd | reflexivity].
  - rewrite fetch_all_eq.
    destruct (for_each _ _ _ _) as [r st1] eqn:Hloop.
    apply loop_outside in Hloop as [_ Hdry].
    destruct r; simpl; apply Hdry; reflexivity.
Qed.

(** C4. After a real run of [fetch_all] over feeds that can all be fetched,
    the cache list of every feed is the list it had before (none for an
    absent key) followed by the ids of the entries reported as new for that
    feed, in the order reported. *)
Theorem cache_appended_in_discovery_order `{Externals} (st : Runner.state) :
  NoDup (feed_names (Runner.feeds (Runner.self st))) ->
  fetchable (Runner.feeds (Runner.self st)) ->
  exists result st',
    Runner.fetch_all false st = (Ok result, st')
    /\ forall feed, feed ∈ Runner.feeds (Runner.self st) ->
         exists new_entries,
           Dict.get result (Feed.name feed) = Some new_entries
           /\ Dict.get (cache_of st') (Feed.name feed)
              = Some (cached_ids (cache_of st) feed ++ (FeedEntry.id <$> new_entries)).
Proof.
  intros Hnd Hfetch.
  destruct (fetch_all_ok false st Hfetch) as (result & st1 & Hloop & Hall).
  exists result, (persisted st1). split; [exact Hall |].
  intros feed Hfeed.
  destruct (loop_values _ _ _ _ _ _ Hnd Hloop) as [_ Hfeeds].
  destruct (Hfeeds feed Hfeed) as (fetched & _ & Hres & Hcache).
  eexists. split; [exact Hres |]. apply Hcache. reflexivity.
Qed.

(** C5. A feed whose name is no key of the cache does not make the run fail:
    when the feeds can be fetched [fetch_all] returns, dry run or not, and
    reports every fetched entry of that feed as new. *)
Theorem absent_key_counts_as_empty `{Externals}
    (dry_run : bool) (st : Runner.state) (feed : Feed.t) :
  NoDup (feed_names (Runner.feeds (Runner.self st))) ->
  fetchable (Runner.feeds (Runner.self st)) ->
  feed ∈ Runner.feeds (Runner.self st) ->
  Dict.get (cache_of st) (Feed.name feed) = None ->
  exists result st' fetched,
    Runner.fetch_all dry_run st = (Ok result, st')
    /\ fetched_entries feed = Ok fetched
    /\ Dict.get result (Feed.name feed) = Some fetched.
Proof.
  intros Hnd Hfetch Hfeed Hnone.
  destruct (fetch_all_ok dry_run st Hfetch) as (result & st1 & Hloop & Hall).
  destruct (loop_values _ _ _ _ _ _ Hnd Hloop) as [_ Hfeeds].
  destruct (Hfeeds feed Hfeed) as (fetched & Hfetched & Hres & _).
  rewrite (cached_ids_absent _ _ Hnone), unseen_nil in Hres.
  eexists result, _, fetched. split; [exact Hall |]. split; assumption.
Qed.

(** C6. The mapping returned by [fetch_all] has an entry for the name of
    every configured feed, whatever the list of new entries of that feed,
    the empty list included. *)
Theorem result_has_every_feed `{Externals} (dry_run : bool) (st : Runner.state) :
  fetchable (Runner.feeds (Runner.self st)) ->
  exists result st',
    Runner.fetch_all dry_run st = (Ok result, st')
    /\ forall feed, feed ∈ Runner.feeds (Runner.self st) ->
         exists new_entries, Dict.get result (Feed.name feed) = Some new_entries.
Proof.
  intros Hfetch.
  destruct (fetch_all_ok dry_run st Hfetch) as (result & st1 & Hloop & Hall).
  eexists result, _. split; [exact Hall |].
  intros feed Hfeed.
  destruct (loop_keys _ _ _ _ _ _ Hloop) as (_ & _ & Hfeeds).
  destruct (Hfeeds feed Hfeed) as [[new_entries Hres] _].
  exists new_entries. exact Hres.
Qed.

(** C10. After a real run of [fetch_all] the cache has a key for every
    configured feed, in memory and in the file, which holds the dump of that
    same mapping; a feed that had no key and no new entry is recorded with
    the empty list. *)
Theorem cache_has_every_feed `{Externals} (st : Runner.state) :
  NoDup (feed_names (Runner.feeds (Runner.self st))) ->
  fetchable (Runner.feeds (Runner.self st)) ->
  exists result st',
    Runner.fetch_all false st = (Ok result, st')
    /\ Runner.files st' !! Runner.feeds_cache_path (Runner.self st)
       = Some (json_dumps (cache_of st'))
    /\ forall feed, feed ∈ Runner.feeds (Runner.self st) ->
         is_Some (Dict.get (cache_of st') (Feed.name feed))
         /\ (Dict.get (cache_of st) (Feed.name feed) = None ->
             Dict.get result (Feed.name feed) = Some [] ->
             Dict.get (cache_of st') (Feed.name feed) = Some []).
Proof.
  intros Hnd Hfetch.
  destruct (fetch_all_ok false st Hfetch) as (result & st1 & Hloop & Hall).
  exists result, (persisted st1). split; [exact Hall |].
  destruct (loop_outside _ _ _ _ _ _ Hloop) as [(_ & _ & _ & _ & Hpath) _].
  split.
  - unfold persisted. cbn [Runner.files]. rewrite Hpath. apply lookup_insert_eq.
  - intros feed Hfeed.
    destruct (loop_keys _ _ _ _ _ _ Hloop) as (_ & _ & Hkeys).
    destruct (loop_values _ _ _ _ _ _ Hnd Hloop) as [_ Hfeeds].
    split; [apply (Hkeys feed Hfeed); reflexivity |].
    intros Hnone Hempty.
    destruct (Hfeeds feed Hfeed) as (fetched & _ & Hres & Hcache).
    specialize (Hcache eq_refl). rewrite Hres in Hempty.
    injection Hempty as Hempty. rewrite Hempty in Hcache.
    rewrite (cached_ids_absent _ _ Hnone) in Hcache. exact Hcache.
Qed.

(** ** [get_feed_by_name] and [create_mail_text] *)

Lemma get_feed_by_name_loop_None (feeds : list Feed.t) (feed_name : string) :
  feed_name ∉ feed_names feeds <->
  Runner.get_feed_by_name_loop feeds feed_name = None.
Proof.
  unfold feed_names. induction feeds as [|feed feeds IH]; simpl.
  - split; [reflexivity | intros _; apply not_elem_of_nil].
  - rewrite not_elem_of_cons.
    destruct (String.eqb_spec (Feed.name feed) feed_name) as [Heq|Hne].
    + split; [intros [Hne _]; congruence | discriminate].
    + rewrite <- IH. split; [tauto | split; [congruence | assumption]].
Qed.

(** C9. For a name that no configured feed bears, [get_feed_by_name]
    returns [None] and [create_mail_text] raises on the first access to the
    title, whatever the entries: it yields no message. *)
Theorem create_mail_text_needs_configured_feed `{Externals}
    (self : Runner.t) (feed_name : string) (entries : list FeedEntry.t) :
  feed_name ∉ feed_names (Runner.feeds self) ->
  Runner.get_feed_by_name self feed_name = None
  /\ Runner.create_mail_text self feed_name entries = Raise (AttributeError "title").
Proof.
  intros Hnin. apply get_feed_by_name_loop_None in Hnin.
  unfold Runner.create_mail_text, Runner.get_feed_by_name.
  rewrite Hnin. split; reflexivity.
Qed.

(** ** [send_mails] *)

Section SendFacts.
Context `{Externals}.

Lemma exec_ops_cons op ops st :
  exec_ops (op :: ops) st
  = match Runner.smtp op st with
    | (Ok _, st1) => exec_ops ops st1
    | (Raise e, st1) => (Raise e, st1)
    end.
Proof.
  unfold exec_ops. simpl. unfold bind.
  destruct (Runner.smtp op st) as [[[]|e] st1]; reflexivity.
Qed.

Lemma exec_ops_app ops1 ops2 :
  forall st,
    exec_ops (ops1 ++ ops2) st
    = match exec_ops ops1 st with
      | (Ok _, st1) => exec_ops ops2 st1
      | (Raise e, st1) => (Raise e, st1)
      end.
Proof.
  induction ops1 as [|op ops1 IH]; intros st.
  - reflexivity.
  - simpl app. rewrite !exec_ops_cons.
    destruct (Runner.smtp op st) as [[[]|e] st1]; [apply IH | reflexivity].
Qed.

Lemma sendmail_loop_eq (f : string -> smtp_op) (mails : list string) :
  forall st,
    for_each (fun (_ : unit) mail => Runner.smtp (f mail)) mails tt st
    = exec_ops (f <$> mails) st.
Proof.
  induction mails as [|mail mails IH]; intros st.
  - reflexivity.
  - rewrite fmap_cons, exec_ops_cons. simpl. unfold bind.
    destruct (Runner.smtp (f mail) st) as [[[]|e] st1]; [apply IH | reflexivity].
Qed.

(** A non-empty call of [send_mails] is the conversion of the port followed
    by the calls of the session. *)
Lemma send_mails_eq (mails : list string) (st : Runner.state) :
  mails <> [] ->
  Runner.send_mails mails st
  = match py_int (MailConfig.smtp_port (Runner.mail_config (Runner.self st))) with
    | Ok port =>
        exec_ops (smtp_session (Runner.mail_config (Runner.self st)) port mails) st
    | Raise e => (Raise e, st)
    end.
Proof.
  intros Hne. destruct mails as [|mail mails]; [contradiction |].
  unfold Runner.send_mails, smtp_session.
  change (Nat.eqb (length (mail :: mails)) 0) with false. cbv iota.
  unfold bind at 1. unfold get_state at 1.
  set (cfg := Runner.mail_config (Runner.self st)).
  set (sends := conn_sendmail (MailConfig.email_from cfg) (MailConfig.email_to cfg)).
  assert (Htail : forall s,
    bind (Runner.smtp (conn_login (MailConfig.smtp_username cfg) (MailConfig.smtp_password cfg)))
         (fun _ => bind (for_each (fun (_ : unit) m => Runner.smtp (sends m)) (mail :: mails) tt)
                        (fun _ => Runner.smtp conn_quit)) s
    = exec_ops ([conn_login (MailConfig.smtp_username cfg) (MailConfig.smtp_password cfg)]
                ++ (sends <$> mail :: mails) ++ [conn_quit]) s).
  { intros s. simpl app. rewrite exec_ops_cons. unfold bind at 1.
    destruct (Runner.smtp _ s) as [[[]|e] s1]; [| reflexivity].
    match goal with
    | |- _ = exec_ops ?ops s1 =>
        change ops with ((sends <$> mail :: mails) ++ [conn_quit])
    end.
    rewrite exec_ops_app. unfold bind at 1.
    rewrite sendmail_loop_eq.
    destruct (exec_ops _ s1) as [[[]|e] s2]; [| reflexivity].
    rewrite exec_ops_cons.
    destruct (Runner.smtp conn_quit s2) as [[[]|e] s3]; reflexivity. }
  assert (Hmid : forall s,
    bind (Runner.smtp conn_ehlo)
         (fun _ => bind (if String.eqb (MailConfig.smtp_protocol cfg) "tls"
                         then Runner.smtp conn_starttls else ret tt)
           (fun _ => bind (Runner.smtp (conn_login (MailConfig.smtp_username cfg)
                                          (MailConfig.smtp_password cfg)))
             (fun _ => bind (for_each (fun (_ : unit) m => Runner.smtp (sends m))
                               (mail :: mails) tt)
                        (fun _ => Runner.smtp conn_quit)))) s
    = exec_ops (conn_ehlo
                :: (if String.eqb (MailConfig.smtp_protocol cfg) "tls"
                    then [conn_starttls] else [])
                ++ [conn_login (MailConfig.smtp_username cfg) (MailConfig.smtp_password cfg)]
                ++ (sends <$> mail :: mails) ++ [conn_quit]) s).
  { intros s. rewrite exec_ops_cons. unfold bind at 1.
    destruct (Runner.smtp conn_ehlo s) as [[[]|e] s1]; [| reflexivity].
    destruct (String.eqb (MailConfig.smtp_protocol cfg) "tls").
    - simpl app. rewrite exec_ops_cons. unfold bind at 1.
      destruct (Runner.smtp conn_starttls s1) as [[[]|e] s2]; [| reflexivity].
      apply Htail.
    - unfold bind at 1. unfold ret at 1. apply Htail. }
  unfold bind at 1.
  destruct (String.eqb (MailConfig.smtp_protocol cfg) "ssl");
    unfold bind at 1; unfold lift at 1;
    (destruct (py_int (MailConfig.smtp_port cfg)) as [port|e]; [| reflexivity]);
    simpl app; rewrite exec_ops_cons;
    (destruct (Runner.smtp _ st) as [[[]|e] s1]; [| reflexivity]);
    apply Hmid.
Qed.

Lemma exec_ops_accepted ops :
  forall st,
    accepted (Runner.trace st) ops = true ->
    exec_ops ops st = (Ok tt, run_ops ops st).
Proof.
  induction ops as [|op ops IH]; intros st Hacc.
  - unfold exec_ops, run_ops. simpl. rewrite app_nil_r. destruct st; reflexivity.
  - simpl in Hacc. apply andb_prop in Hacc as [Hop Hacc].
    rewrite exec_ops_cons. unfold Runner.smtp. rewrite Hop.
    rewrite IH by exact Hacc.
    unfold run_ops. simpl. rewrite <- app_assoc. reflexivity.
Qed.

(** Whatever the outcome, the calls only add to the trace the ones that went
    through, a first part of the list. *)
Lemma exec_ops_done ops :
  forall st r st',
    exec_ops ops st = (r, st') ->
    exists done, done `prefix_of` ops /\ st' = run_ops done st.
Proof.
  induction ops as [|op ops IH]; intros st r st' Hrun.
  - inversion Hrun; subst. exists []. split; [reflexivity |].
    unfold run_ops. simpl. rewrite app_nil_r. destruct st'; reflexivity.
  - rewrite exec_ops_cons in Hrun. unfold Runner.smtp in Hrun.
    destruct (smtp_accepts (Runner.trace st) op).
    + apply IH in Hrun as (done & Hpre & ->). exists (op :: done). split.
      * apply prefix_cons. exact Hpre.
      * unfold run_ops. simpl. rewrite <- app_assoc. reflexivity.
    + inversion Hrun; subst. exists []. split; [apply prefix_nil |].
      unfold run_ops. simpl. rewrite app_nil_r. destruct st'; reflexivity.
Qed.

Lemma send_mails_done (mails : list string) (st : Runner.state) :
  exists done, snd (Runner.send_mails mails st) = run_ops done st.
Proof.
  destruct mails as [|mail mails].
  - exists []. unfold run_ops. simpl. rewrite app_nil_r. destruct st; reflexivity.
  - rewrite send_mails_eq by discriminate.
    destruct (py_int _) as [port|e].
    + destruct (exec_ops _ st) as [r st'] eqn:Hrun.
      apply exec_ops_done in Hrun as (done & _ & ->). exists done. reflexivity.
    + exists []. unfold run_ops. simpl. rewrite app_nil_r. destruct st; reflexivity.
Qed.

Lemma smtp_session_connections cfg port mails :
  connections (smtp_session cfg port mails) = 1.
Proof.
  unfold smtp_session.
  assert (Hsends : forall f t, connections ((conn_sendmail f t <$> mails) ++ [conn_quit]) = 0).
  { intros f t. induction mails as [|mail mails IH]; [reflexivity | exact IH]. }
  destruct (String.eqb _ "ssl"), (String.eqb _ "tls"); simpl; rewrite Hsends; reflexivity.
Qed.

Lemma smtp_session_sent cfg port mails :
  sent_mails (smtp_session cfg port mails) = mails.
Proof.
  unfold smtp_session.
  assert (Hsends : forall f t, sent_mails ((conn_sendmail f t <$> mails) ++ [conn_quit]) = mails).
  { intros f t. induction mails as [|mail mails IH]; [reflexivity |].
    rewrite fmap_cons. cbn [app sent_mails]. f_equal. exact IH. }
  destruct (String.eqb _ "ssl"), (String.eqb _ "tls"); cbn [app sent_mails];
    apply Hsends.
Qed.
End SendFacts.

(** C7. With no mail, [send_mails] returns at once and the state, trace
    included, is the one of before: no connection is opened.  With mails,
    a port that converts and a server that accepts the calls, it makes the
    calls of one session, which opens exactly one connection and sends the
    mails of the list, each once and in order. *)
Theorem send_mails_one_session `{Externals} (mails : list string) (st : Runner.state) :
  Runner.send_mails [] st = (Ok tt, st)
  /\ forall port,
       mails <> [] ->
       py_int (MailConfig.smtp_port (Runner.mail_config (Runner.self st))) = Ok port ->
       accepted (Runner.trace st)
         (smtp_session (Runner.mail_config (Runner.self st)) port mails) = true ->
       Runner.send_mails mails st
       = (Ok tt, run_ops (smtp_session (Runner.mail_config (Runner.self st)) port mails) st)
       /\ connections (smtp_session (Runner.mail_config (Runner.self st)) port mails) = 1
       /\ sent_mails (smtp_session (Runner.mail_config (Runner.self st)) port mails) = mails.
Proof.
  split; [reflexivity |].
  intros port Hne Hport Hacc. split; [| split].
  - rewrite send_mails_eq by exact Hne. rewrite Hport.
    apply exec_ops_accepted. exact Hacc.
  - apply smtp_session_connections.
  - apply smtp_session_sent.
Qed.

(** ** [main] *)

Section MainFacts.
Context `{Externals}.

Lemma run_ops_nil (st : Runner.state) : run_ops [] st = st.
Proof. unfold run_ops. simpl. rewrite app_nil_r. destruct st; reflexivity. Qed.

(** In a real run the loop over the new entries only builds the reports. *)
Lemma main_loop_state (items : list (string * list FeedEntry.t)) :
  forall mail_reports st,
    snd (for_each (main_body false) items mail_reports st) = st.
Proof.
  induction items as [|[feed_name entries] items IH]; intros mail_reports st.
  - reflexivity.
  - simpl. unfold bind at 1.
    destruct (Nat.eqb (length entries) 0).
    + unfold ret at 1. apply IH.
    + unfold bind at 1. unfold get_state at 1. unfold bind at 1. unfold lift at 1.
      destruct (Runner.create_mail_text _ _ _) as [mail_report|e]; [| reflexivity].
      simpl. apply IH.
Qed.

(** After [fetch_all] a real run does nothing but calls on the server. *)
Lemma main_state (st : Runner.state) result st1 :
  Runner.fetch_all false st = (Ok result, st1) ->
  exists done, snd (main false st) = run_ops done st1.
Proof.
  intros Hall. unfold main. unfold bind at 1. rewrite Hall. unfold bind at 1.
  pose proof (main_loop_state (Dict.items result) [] st1) as Hloop.
  destruct (for_each _ _ _ st1) as [[mail_reports|e] st2]; simpl in Hloop; subst st2.
  - unfold bind at 1.
    destruct (send_mails_done mail_reports st1) as [done Hdone].
    exists done. rewrite <- Hdone.
    destruct (Runner.send_mails mail_reports st1) as [[[]|e] st3]; reflexivity.
  - exists []. rewrite run_ops_nil. reflexivity.
Qed.
End MainFacts.

(** C2. In every real run the write of the cache file comes before any
    mail.  When [fetch_all] raises, nothing is written and nothing is sent.
    When it returns, then whatever happens to the mail afterwards, the run
    ends with a trace made of the write of the cache file followed by
    nothing but calls on the server; the file holds the dump of the updated
    cache, and under each key of the result that cache lists the identifier
    of every entry reported as new, whether or not a mail for it went out. *)
Theorem cache_written_before_mail `{Externals} (st : Runner.state) :
  let st' := snd (main false st) in
  let path := Runner.feeds_cache_path (Runner.self st) in
  match fst (Runner.fetch_all false st) with
  | Raise _ =>
      Runner.files st' = Runner.files st /\ Runner.trace st' = Runner.trace st
  | Ok result =>
      exists ops,
        Runner.trace st'
        = Runner.trace st ++ FileWrite path (json_dumps (cache_of st')) :: (Smtp <$> ops)
        /\ Runner.files st' !! path = Some (json_dumps (cache_of st'))
        /\ forall feed_name new_entries entry,
             Dict.get result feed_name = Some new_entries ->
             entry ∈ new_entries ->
             FeedEntry.id entry ∈ Dict.get_default (cache_of st') feed_name []
  end.
Proof.
  intros st' path.
  destruct (Runner.fetch_all false st) as [[result|e] st1] eqn:Hall; simpl.
  - destruct (main_state st _ _ Hall) as [ops Hmain].
    rewrite fetch_all_eq in Hall.
    destruct (for_each _ _ _ st) as [[result0|e] st0] eqn:Hloop; [| discriminate].
    inversion Hall; subst result0 st1. clear Hall.
    destruct (loop_outside _ _ _ _ _ _ Hloop) as [(_ & Htrace & _ & _ & Hpath) _].
    exists ops. subst st'. rewrite Hmain. split; [| split].
    + unfold run_ops, persisted. cbn [Runner.trace Runner.self Runner.files].
      rewrite Htrace, Hpath, <- app_assoc. reflexivity.
    + unfold run_ops, persisted. cbn [Runner.trace Runner.self Runner.files].
      subst path. rewrite <- Hpath. apply lookup_insert_eq.
    + change (cache_of (run_ops ops (persisted st0))) with (cache_of st0).
      apply (loop_new_ids_cached _ _ _ _ _ Hloop).
      intros k entries entry Hget. discriminate Hget.
  - assert (Hmain : main false st = (Raise e, st1)).
    { unfold main. unfold bind at 1. rewrite Hall. reflexivity. }
    subst st'. rewrite Hmain. simpl.
    rewrite fetch_all_eq in Hall.
    destruct (for_each _ _ _ st) as [[result0|e0] st0] eqn:Hloop; [discriminate |].
    inversion Hall; subst e0 st0.
    destruct (loop_outside _ _ _ _ _ _ Hloop) as [(Hfiles & Htrace & _) _].
    split; assumption.
Qed.

(** ** The cost of the diff *)

Lemma list_contains_cost_replicate (n : nat) :
  list_contains_cost "new" (replicate n "seen") = n.
Proof.
  induction n as [|n IH]; [reflexivity |]. simpl. rewrite IH. reflexivity.
Qed.

(** C8, as stated, does not hold: no constant bounds the comparisons of the
    diff per fetched entry, since one entry against a cache of [c + 1]
    identifiers already costs [c + 1] comparisons. *)
Lemma diff_cost_not_linear_in_entries :
  ~ (exists c, forall known_ids raw_entries,
       fetch_loop_cost known_ids raw_entries <= c * length raw_entries).
Proof.
  intros [c Hc].
  specialize (Hc (replicate (S c) "seen") [raw_entry_of "new" "t" "a" "l"]).
  change (fetch_loop_cost (replicate (S c) "seen") [raw_entry_of "new" "t" "a" "l"])
    with (list_contains_cost "new" (replicate (S c) "seen") + 0) in Hc.
  rewrite list_contains_cost_replicate in Hc. simpl length in Hc. lia.
Qed.

(** C8, amended.  The membership test scans the cached list: the diff of
    [n] fetched entries against [m] cached identifiers makes at most [n * m]
    comparisons, and at least [m] for every entry it reports as new. *)
Theorem diff_cost_entries_times_cache
    (known_ids : list string) (raw_entries : list RawEntry) (fetched : list FeedEntry.t) :
  parse_entries raw_entries = Ok fetched ->
  length (unseen known_ids fetched) * length known_ids
    <= fetch_loop_cost known_ids raw_entries
    <= length fetched * length known_ids.
Proof.
  revert fetched. induction raw_entries as [|raw rest IH]; simpl; intros fetched Hparse.
  - inversion Hparse; subst. simpl. lia.
  - destruct (FeedEntry.from_raw_feed_entry raw) as [entry|e]; simpl in Hparse;
      [| discriminate].
    destruct (parse_entries rest) as [fetched'|e]; simpl in Hparse; [| discriminate].
    inversion Hparse; subst. specialize (IH fetched' eq_refl).
    pose proof (list_contains_cost_le (FeedEntry.id entry) known_ids) as Hle.
    unfold unseen in *. simpl length at 3.
    destruct (decide (FeedEntry.id entry ∈ known_ids)) as [Hin|Hnin].
    + rewrite filter_cons_False by tauto. lia.
    + rewrite filter_cons_True by assumption.
      rewrite (list_contains_cost_absent _ _ Hnin). simpl. lia.
Qed.

(** * The properties on the concrete installation *)

Ltac by_decision := apply (bool_decide_unpack _); vm_compute; exact I.
Ltac all_fetchable :=
  unfold fetchable; repeat (apply List.Forall_cons; [exact I |]); apply List.Forall_nil.

Example demo_runner_constructed :
  @Runner.init (demo_externals true) demo_files "config.yaml" "cache.json"
  = Ok demo_runner.
Proof. reflexivity. Qed.

Example fetch_issues :
  @Feed.fetch (demo_externals true) demo_issues ["1"; "2"]
  = Ok [FeedEntry.mk "3" "Add dark mode" "carol" "https://gitlab.example.org/i/3"].
Proof. reflexivity. Qed.

Example refused_mail_is_cached_all_the_same :
  let run := @main (demo_externals false) false demo_state in
  fst run = Raise SMTPException
  /\ Runner.trace (snd run)
     = [FileWrite "cache.json"
          ("{" +:+ dq +:+ "issues" +:+ dq +:+ ": [" +:+ dq +:+ "1" +:+ dq +:+ ", "
           +:+ dq +:+ "2" +:+ dq +:+ ", " +:+ dq +:+ "3" +:+ dq +:+ "], "
           +:+ dq +:+ "mrs" +:+ dq +:+ ": []}")]
  /\ cache_of (snd run) = [("issues", ["1"; "2"; "3"]); ("mrs", [])].
Proof. vm_compute. repeat split. Qed.

Lemma dry_run_same_result_state_untouched_witness :
  NoDup (feed_names (Runner.feeds (Runner.self demo_state)))
  /\ fst (@Runner.fetch_all (demo_externals true) true demo_state)
     = fst (@Runner.fetch_all (demo_externals true) false demo_state)
  /\ snd (@Runner.fetch_all (demo_externals true) true demo_state) = demo_state.
Proof.
  assert (Hnd : NoDup (feed_names (Runner.feeds (Runner.self demo_state))))
    by by_decision.
  split; [exact Hnd |].
  exact (@dry_run_same_result_state_untouched (demo_externals true) demo_state Hnd).
Defined.

Lemma cache_appended_in_discovery_order_witness :
  NoDup (feed_names (Runner.feeds (Runner.self demo_state)))
  /\ @fetchable (demo_externals true) (Runner.feeds (Runner.self demo_state))
  /\ exists result st',
       @Runner.fetch_all (demo_externals true) false demo_state = (Ok result, st')
       /\ forall feed, feed ∈ Runner.feeds (Runner.self demo_state) ->
            exists new_entries,
              Dict.get result (Feed.name feed) = Some new_entries
              /\ Dict.get (cache_of st') (Feed.name feed)
                 = Some (cached_ids (cache_of demo_state) feed
                         ++ (FeedEntry.id <$> new_entries)).
Proof.
  assert (Hnd : NoDup (feed_names (Runner.feeds (Runner.self demo_state))))
    by by_decision.
  assert (Hfetch : @fetchable (demo_externals true)
                     (Runner.feeds (Runner.self demo_state)))
    by all_fetchable.
  split; [exact Hnd |]. split; [exact Hfetch |].
  exact (@cache_appended_in_discovery_order (demo_externals true) demo_state Hnd Hfetch).
Defined.

Lemma absent_key_counts_as_empty_witness :
  NoDup (feed_names (Runner.feeds (Runner.self demo_fresh_state)))
  /\ @fetchable (demo_externals true) (Runner.feeds (Runner.self demo_fresh_state))
  /\ demo_issues ∈ Runner.feeds (Runner.self demo_fresh_state)
  /\ Dict.get (cache_of demo_fresh_state) (Feed.name demo_issues) = None
  /\ exists result st' fetched,
       @Runner.fetch_all (demo_externals true) false demo_fresh_state = (Ok result, st')
       /\ @fetched_entries (demo_externals true) demo_issues = Ok fetched
       /\ Dict.get result (Feed.name demo_issues) = Some fetched.
Proof.
  assert (Hnd : NoDup (feed_names (Runner.feeds (Runner.self demo_fresh_state))))
    by by_decision.
  assert (Hfetch : @fetchable (demo_externals true)
                     (Runner.feeds (Runner.self demo_fresh_state)))
    by all_fetchable.
  assert (Hin : demo_issues ∈ Runner.feeds (Runner.self demo_fresh_state))
    by (simpl; left).
  assert (Hnone : Dict.get (cache_of demo_fresh_state) (Feed.name demo_issues) = None)
    by reflexivity.
  split; [exact Hnd |]. split; [exact Hfetch |]. split; [exact Hin |].
  split; [exact Hnone |].
  exact (@absent_key_counts_as_empty (demo_externals true) false demo_fresh_state
           demo_issues Hnd Hfetch Hin Hnone).
Defined.

Lemma result_has_every_feed_witness :
  @fetchable (demo_externals true) (Runner.feeds (Runner.self demo_state))
  /\ exists result st',
       @Runner.fetch_all (demo_externals true) false demo_state = (Ok result, st')
       /\ forall feed, feed ∈ Runner.feeds (Runner.self demo_state) ->
            exists new_entries, Dict.get result (Feed.name feed) = Some new_entries.
Proof.
  assert (Hfetch : @fetchable (demo_externals true)
                     (Runner.feeds (Runner.self demo_state)))
    by all_fetchable.
  split; [exact Hfetch |].
  exact (@result_has_every_feed (demo_externals true) false demo_state Hfetch).
Defined.

Example mrs_reported_with_no_entry :
  fst (@Runner.fetch_all (demo_externals true) false demo_state)
  = Ok [("issues",
         [FeedEntry.mk "3" "Add dark mode" "carol" "https://gitlab.example.org/i/3"]);
        ("mrs", [])].
Proof. reflexivity. Qed.

Lemma send_mails_one_session_witness :
  @Runner.send_mails (demo_externals true) [] demo_state = (Ok tt, demo_state)
  /\ @Runner.send_mails (demo_externals true) ["first"; "second"] demo_state
     = (Ok tt,
        run_ops (smtp_session demo_mail_config 587 ["first"; "second"]) demo_state)
  /\ connections (smtp_session demo_mail_config 587 ["first"; "second"]) = 1
  /\ sent_mails (smtp_session demo_mail_config 587 ["first"; "second"])
     = ["first"; "second"].
Proof.
  destruct (@send_mails_one_session (demo_externals true) ["first"; "second"] demo_state)
    as [Hnone Hsome].
  split; [exact Hnone |].
  apply (Hsome 587%Z); [discriminate | reflexivity | reflexivity].
Defined.

Lemma diff_cost_entries_times_cache_witness :
  parse_entries demo_raw_entries = Ok demo_entries
  /\ length (unseen ["1"; "2"] demo_entries) * length ["1"; "2"]
       <= fetch_loop_cost ["1"; "2"] demo_raw_entries
       <= length demo_entries * length ["1"; "2"].
Proof.
  split; [reflexivity |].
  exact (diff_cost_entries_times_cache ["1"; "2"] demo_raw_entries demo_entries eq_refl).
Defined.

Lemma create_mail_text_needs_configured_feed_witness :
  ("wiki" ∉ feed_names (Runner.feeds demo_runner))
  /\ Runner.get_feed_by_name demo_runner "wiki" = None
  /\ @Runner.create_mail_text (demo_externals true) demo_runner "wiki" demo_entries
     = Raise (AttributeError "title").
Proof.
  assert (Hnin : "wiki" ∉ feed_names (Runner.feeds demo_runner)) by by_decision.
  split; [exact Hnin |].
  exact (@create_mail_text_needs_configured_feed (demo_externals true) demo_runner
           "wiki" demo_entries Hnin).
Defined.

Lemma cache_has_every_feed_witness :
  NoDup (feed_names (Runner.feeds (Runner.self demo_state)))
  /\ @fetchable (demo_externals true) (Runner.feeds (Runner.self demo_state))
  /\ exists result st',
       @Runner.fetch_all (demo_externals true) false demo_state = (Ok result, st')
       /\ Runner.files st' !! Runner.feeds_cache_path (Runner.self demo_state)
          = Some (demo_json_dumps (cache_of st'))
       /\ forall feed, feed ∈ Runner.feeds (Runner.self demo_state) ->
            is_Some (Dict.get (cache_of st') (Feed.name feed))
            /\ (Dict.get (cache_of demo_state) (Feed.name feed) = None ->
                Dict.get result (Feed.name feed) = Some [] ->
                Dict.get (cache_of st') (Feed.name feed) = Some []).
Proof.
  assert (Hnd : NoDup (feed_names (Runner.feeds (Runner.self demo_state))))
    by by_decision.
  assert (Hfetch : @fetchable (demo_externals true)
                     (Runner.feeds (Runner.self demo_state)))
    by all_fetchable.
  split; [exact Hnd |]. split; [exact Hfetch |].
  exact (@cache_has_every_feed (demo_externals true) demo_state Hnd Hfetch).
Defined.

(** * Further properties of the code *)

(** ** Reading raw entries and configurations *)

Lemma getitem_Ok {V} (d : dict V) (k : string) (v : V) :
  Dict.getitem d k = Ok v <-> Dict.get d k = Some v.
Proof.
  unfold Dict.getitem. destruct (Dict.get d k); split; congruence.
Qed.

Lemma getitem_Raise {V} (d : dict V) (k : string) (e : exn) :
  Dict.getitem d k = Raise e <-> e = KeyError k /\ Dict.get d k = None.
Proof.
  unfold Dict.getitem. destruct (Dict.get d k); split.
  - discriminate.
  - intros [_ Hnone]. discriminate.
  - intros Heq. injection Heq as <-. split; reflexivity.
  - intros [-> _]. reflexivity.
Qed.

Lemma rbind_Ok {A B} (r : result A) (k : A -> result B) (b : B) :
  rbind r k = Ok b <-> exists a, r = Ok a /\ k a = Ok b.
Proof.
  destruct r as [a|e]; simpl; split.
  - intros Hk. exists a. split; [reflexivity | exact Hk].
  - intros (a' & Ha & Hk). injection Ha as ->. exact Hk.
  - discriminate.
  - intros (a' & Ha & _). discriminate.
Qed.

Lemma rbind_Raise {A B} (r : result A) (k : A -> result B) (e : exn) :
  rbind r k = Raise e <-> r = Raise e \/ exists a, r = Ok a /\ k a = Raise e.
Proof.
  destruct r as [a|e']; simpl; split.
  - intros Hk. right. exists a. split; [reflexivity | exact Hk].
  - intros [Hr | (a' & Ha & Hk)]; [discriminate |]. injection Ha as ->. exact Hk.
  - intros Hr. left. injection Hr as ->. reflexivity.
  - intros [Hr | (a' & Ha & _)]; [| discriminate]. injection Hr as ->. reflexivity.
Qed.

Ltac in_list := solve [ repeat (first [ left | right ]) ].

Ltac read_keys H :=
  repeat (let v := fresh "v" in
          let Hv := fresh "Hv" in
          apply rbind_Ok in H as (v & Hv & H); apply getitem_Ok in Hv).

Ltac missing_key H :=
  repeat (apply rbind_Raise in H as [H | H];
          [ apply getitem_Raise in H as [-> H];
            eexists; split; [reflexivity | split; [in_list | exact H]]
          | let v := fresh "v" in
            let Hv := fresh "Hv" in
            destruct H as (v & Hv & H) ]).

(** X1. [from_raw_feed_entry] returns an entry exactly when the raw entry
    has the keys [id], [title], [author] and [link], and the entry holds
    their values, the link as its url; otherwise it raises the [KeyError] of
    a missing one of these keys. *)
Theorem from_raw_feed_entry_reads_four_keys (raw : RawEntry) :
  (forall entry,
     FeedEntry.from_raw_feed_entry raw = Ok entry <->
     Dict.get raw "id" = Some (FeedEntry.id entry)
     /\ Dict.get raw "title" = Some (FeedEntry.title entry)
     /\ Dict.get raw "author" = Some (FeedEntry.author entry)
     /\ Dict.get raw "link" = Some (FeedEntry.url entry))
  /\ (forall e,
        FeedEntry.from_raw_feed_entry raw = Raise e ->
        exists key,
          e = KeyError key
          /\ key ∈ ["id"; "title"; "author"; "link"]
          /\ Dict.get raw key = None).
Proof.
  split.
  - intros entry. unfold FeedEntry.from_raw_feed_entry. split.
    + intros Hraw. read_keys Hraw. injection Hraw as <-. simpl. auto.
    + intros (Hid & Htitle & Hauthor & Hlink).
      apply getitem_Ok in Hid, Htitle, Hauthor, Hlink.
      rewrite Hid, Htitle, Hauthor, Hlink. simpl. destruct entry; reflexivity.
  - intros e Hraw. unfold FeedEntry.from_raw_feed_entry in Hraw.
    missing_key Hraw. discriminate Hraw.
Qed.

(** X2. [MailConfig.from_config] returns a configuration exactly when the
    mapping has the seven keys it reads, and the configuration holds their
    values; otherwise it raises the [KeyError] of a missing one of them. *)
Theorem mail_config_reads_seven_keys (raw_config : dict string) :
  (forall cfg,
     MailConfig.from_config raw_config = Ok cfg <->
     Dict.get raw_config "host" = Some (MailConfig.smtp_host cfg)
     /\ Dict.get raw_config "port" = Some (MailConfig.smtp_port cfg)
     /\ Dict.get raw_config "protocol" = Some (MailConfig.smtp_protocol cfg)
     /\ Dict.get raw_config "username" = Some (MailConfig.smtp_username cfg)
     /\ Dict.get raw_config "password" = Some (MailConfig.smtp_password cfg)
     /\ Dict.get raw_config "email_from" = Some (MailConfig.email_from cfg)
     /\ Dict.get raw_config "email_to" = Some (MailConfig.email_to cfg))
  /\ (forall e,
        MailConfig.from_config raw_config = Raise e ->
        exists key,
          e = KeyError key
          /\ key ∈ ["host"; "port"; "protocol"; "username"; "password";
                     "email_from"; "email_to"]
          /\ Dict.get raw_config key = None).
Proof.
  split.
  - intros cfg. unfold MailConfig.from_config. split.
    + intros Hraw. read_keys Hraw. injection Hraw as <-. simpl.
      repeat split; assumption.
    + intros (H1 & H2 & H3 & H4 & H5 & H6 & H7).
      apply getitem_Ok in H1, H2, H3, H4, H5, H6, H7.
      rewrite H1, H2, H3, H4, H5, H6, H7. simpl. destruct cfg; reflexivity.
  - intros e Hraw. unfold MailConfig.from_config in Hraw.
    missing_key Hraw. discriminate Hraw.
Qed.

Lemma fetch_raw_loop_eq `{Externals} (urls : list string) :
  forall entries,
    Feed.fetch_raw_loop urls entries
    = (let? parsed := parse_urls urls in Ok (entries ++ concat parsed))%res.
Proof.
  induction urls as [|url urls IH]; intros entries; simpl.
  - rewrite app_nil_r. reflexivity.
  - destruct (feedparser_parse url) as [parsed|e]; simpl; [| reflexivity].
    rewrite IH. destruct (parse_urls urls) as [rest|e]; simpl; [| reflexivity].
    rewrite app_assoc. reflexivity.
Qed.

(** X3. [fetch_raw] returns the entries of all the URLs of the feed, URL
    after URL in the order of the configuration, and raises what feedparser
    raises on the first URL it fails on; a feed without URL has no entry. *)
Theorem fetch_raw_concatenates `{Externals} (feed : Feed.t) :
  Feed.fetch_raw feed
  = (let? parsed := parse_urls (Feed.urls feed) in Ok (concat parsed))%res.
Proof.
  unfold Feed.fetch_raw. rewrite fetch_raw_loop_eq.
  destruct (parse_urls (Feed.urls feed)); reflexivity.
Qed.

(** ** Looking a feed up and building the runner *)

(** X4. [get_feed_by_name] returns the first feed of the list that bears the
    name: no feed before it does; it returns [None] exactly when no feed
    bears the name. *)
Theorem get_feed_by_name_first_match (self : Runner.t) (feed_name : string) :
  match Runner.get_feed_by_name self feed_name with
  | Some feed =>
      exists before after,
        Runner.feeds self = before ++ feed :: after
        /\ Feed.name feed = feed_name
        /\ feed_name ∉ feed_names before
  | None => feed_name ∉ feed_names (Runner.feeds self)
  end.
Proof.
  unfold Runner.get_feed_by_name, feed_names.
  induction (Runner.feeds self) as [|feed feeds IH]; simpl.
  - apply not_elem_of_nil.
  - destruct (String.eqb_spec (Feed.name feed) feed_name) as [Heq|Hne].
    + exists [], feeds. split; [reflexivity |]. split; [exact Heq |].
      apply not_elem_of_nil.
    + destruct (Runner.get_feed_by_name_loop feeds feed_name) as [found|].
      * destruct IH as (before & after & -> & Hname & Hbefore).
        exists (feed :: before), after. split; [reflexivity |].
        split; [exact Hname |]. rewrite fmap_cons.
        apply not_elem_of_cons. split; [congruence | exact Hbefore].
      * apply not_elem_of_cons. split; [congruence | exact IH].
Qed.

(** X5. When the names of the feeds are pairwise distinct, every feed of the
    runner is the one [get_feed_by_name] returns for its name. *)
Theorem get_feed_by_name_finds_each_feed (self : Runner.t) (feed : Feed.t) :
  NoDup (feed_names (Runner.feeds self)) ->
  feed ∈ Runner.feeds self ->
  Runner.get_feed_by_name self (Feed.name feed) = Some feed.
Proof.
  unfold Runner.get_feed_by_name, feed_names.
  induction (Runner.feeds self) as [|first feeds IH]; intros Hnd Hin.
  - inversion Hin.
  - rewrite fmap_cons in Hnd. apply NoDup_cons in Hnd as [Hfresh Hnd]. simpl.
    apply elem_of_cons in Hin as [->|Hin].
    + rewrite String.eqb_refl. reflexivity.
    + destruct (String.eqb_spec (Feed.name first) (Feed.name feed)) as [Heq|Hne].
      * exfalso. apply Hfresh. rewrite Heq.
        apply list_elem_of_fmap. exists feed. split; [reflexivity | exact Hin].
      * apply IH; assumption.
Qed.

Lemma init_feeds_items (items : list (string * RawFeedConfig)) :
  forall feeds feeds',
    Runner.init_feeds items feeds = Ok feeds' ->
    exists built, feeds' = feeds ++ built /\ Forall2 feed_of_item built items.
Proof.
  induction items as [|[feed_name raw_feed] items IH]; intros feeds feeds' Hinit;
    simpl in Hinit.
  - inversion Hinit; subst. exists []. split; [| constructor].
    rewrite app_nil_r. reflexivity.
  - destruct (Feed.from_config feed_name raw_feed) as [feed|e] eqn:Hfeed;
      simpl in Hinit; [| discriminate].
    destruct (IH _ _ Hinit) as (built & -> & Hbuilt).
    exists (feed :: built). split; [rewrite <- app_assoc; reflexivity |].
    constructor; [| exact Hbuilt].
    unfold Feed.from_config in Hfeed. unfold feed_of_item. simpl.
    destruct (raw_title raw_feed), (raw_urls raw_feed); simpl in Hfeed;
      try discriminate.
    inversion Hfeed; subst. auto.
Qed.

(** X6. A runner that [__init__] builds holds: the mail configuration read
    from the [smtp] mapping of the configuration file; one feed per item of
    its [feeds] mapping, in the order of the mapping, named by the key and
    with the title and the URLs of the item; the cache loaded from the cache
    file; and the path of that file. *)
Theorem init_builds_runner_from_files `{Externals}
    (files : gmap string string) (config_path feeds_cache_path : string)
    (runner : Runner.t) :
  Runner.init files config_path feeds_cache_path = Ok runner ->
  exists config_text yaml_config raw_smtp raw_feeds cache_text,
    files !! config_path = Some config_text
    /\ yaml_safe_load config_text = Ok yaml_config
    /\ yaml_smtp yaml_config = Some raw_smtp
    /\ MailConfig.from_config raw_smtp = Ok (Runner.mail_config runner)
    /\ yaml_feeds yaml_config = Some raw_feeds
    /\ Forall2 feed_of_item (Runner.feeds runner) (Dict.items raw_feeds)
    /\ files !! feeds_cache_path = Some cache_text
    /\ json_loads cache_text = Ok (Runner.feeds_cache runner)
    /\ Runner.feeds_cache_path runner = feeds_cache_path.
Proof.
  intros Hinit. unfold Runner.init, Runner.read_text in Hinit.
  destruct (files !! config_path) as [config_text|] eqn:Hconfig; simpl in Hinit;
    [| discriminate].
  destruct (yaml_safe_load config_text) as [yaml_config|e] eqn:Hload; simpl in Hinit;
    [| discriminate].
  destruct (yaml_smtp yaml_config) as [raw_smtp|] eqn:Hsmtp; simpl in Hinit;
    [| discriminate].
  destruct (MailConfig.from_config raw_smtp) as [mail_config|e] eqn:Hmail;
    simpl in Hinit; [| discriminate].
  destruct (yaml_feeds yaml_config) as [raw_feeds|] eqn:Hraw; simpl in Hinit;
    [| discriminate].
  destruct (Runner.init_feeds (Dict.items raw_feeds) []) as [feeds|e] eqn:Hfeeds;
    simpl in Hinit; [| discriminate].
  destruct (files !! feeds_cache_path) as [cache_text|] eqn:Hfile; simpl in Hinit;
    [| discriminate].
  destruct (json_loads cache_text) as [feeds_cache|e] eqn:Hcache; simpl in Hinit;
    [| discriminate].
  injection Hinit as <-. simpl.
  destruct (init_feeds_items _ _ _ Hfeeds) as (built & -> & Hbuilt).
  exists config_text, yaml_config, raw_smtp, raw_feeds, cache_text.
  split; [reflexivity |]. split; [exact Hload |]. split; [exact Hsmtp |].
  split; [exact Hmail |]. split; [exact Hraw |]. split; [exact Hbuilt |].
  split; [reflexivity |]. split; [exact Hcache | reflexivity].
Qed.

(** ** More on [fetch_all] *)

Section FetchAllMore.
Context `{Externals}.

Lemma loop_raises_at dry_run before feed after e :
  fetchable before ->
  fetched_entries feed = Raise e ->
  forall result st,
    fst (for_each (Runner.fetch_all_body dry_run) (before ++ feed :: after) result st)
    = Raise e.
Proof.
  intros Hbefore Hfeed.
  induction Hbefore as [|first before Hfirst _ IH]; intros result st; simpl;
    unfold bind; rewrite fetch_all_body_eq, fetch_eq.
  - rewrite Hfeed. reflexivity.
  - destruct (fetched_entries first) as [fetched|e']; [| contradiction]. simpl.
    apply IH.
Qed.

Lemma cache_extends_refl cache : cache_extends cache cache.
Proof. intros k ids Hget. exists []. rewrite app_nil_r. exact Hget. Qed.

Lemma cache_extends_trans c1 c2 c3 :
  cache_extends c1 c2 -> cache_extends c2 c3 -> cache_extends c1 c3.
Proof.
  intros H12 H23 k ids Hget.
  destruct (H12 k ids Hget) as [more1 Hget2].
  destruct (H23 k _ Hget2) as [more2 Hget3].
  exists (more1 ++ more2). rewrite app_assoc. exact Hget3.
Qed.

Lemma step_state_extends dry_run feed entries st :
  cache_extends (cache_of st) (cache_of (step_state dry_run feed entries st)).
Proof.
  destruct dry_run; [apply cache_extends_refl |].
  intros k ids Hget. destruct (decide (k = Feed.name feed)) as [->|Hne].
  - rewrite step_state_cache_feed. unfold cached_ids, Dict.get_default.
    rewrite Hget. eexists. reflexivity.
  - rewrite step_state_cache_same by exact Hne. exists [].
    rewrite app_nil_r. exact Hget.
Qed.

(** Whatever its outcome, the loop only lengthens the lists of the cache,
    and only under the names of its feeds. *)
Lemma loop_extends dry_run feeds :
  forall result st r st',
    for_each (Runner.fetch_all_body dry_run) feeds result st = (r, st') ->
    cache_extends (cache_of st) (cache_of st')
    /\ forall k, k ∉ feed_names feeds ->
         Dict.get (cache_of st') k = Dict.get (cache_of st) k.
Proof.
  induction feeds as [|feed feeds IH]; intros result st r st' Hrun; simpl in Hrun.
  - inversion Hrun; subst. split; [apply cache_extends_refl | reflexivity].
  - unfold bind in Hrun. rewrite fetch_all_body_eq in Hrun.
    destruct (Feed.fetch feed _) as [entries|e].
    + apply IH in Hrun as [Hext Hsame]. split.
      * eapply cache_extends_trans; [apply step_state_extends | exact Hext].
      * intros k Hk. unfold feed_names in Hk. rewrite fmap_cons in Hk.
        apply not_elem_of_cons in Hk as [Hne Hk]. rewrite (Hsame k Hk).
        destruct dry_run; [reflexivity |]. apply step_state_cache_same. exact Hne.
    + inversion Hrun; subst. split; [apply cache_extends_refl | reflexivity].
Qed.

(** The keys of the result are the names of the feeds, in their order, when
    these are pairwise distinct and new to the result. *)
Lemma loop_result_keys dry_run feeds :
  forall result st result' st',
    NoDup (Dict.keys result ++ feed_names feeds) ->
    for_each (Runner.fetch_all_body dry_run) feeds result st = (Ok result', st') ->
    Dict.keys result' = Dict.keys result ++ feed_names feeds.
Proof.
  induction feeds as [|feed feeds IH]; intros result st result' st' Hnd Hrun;
    simpl in Hrun.
  - inversion Hrun; subst. unfold feed_names. simpl. rewrite app_nil_r. reflexivity.
  - unfold bind in Hrun. rewrite fetch_all_body_eq in Hrun.
    destruct (Feed.fetch feed _) as [entries|e]; [| discriminate].
    change (feed_names (feed :: feeds)) with (Feed.name feed :: feed_names feeds) in *.
    assert (Hkeys : Dict.keys (Dict.set result (Feed.name feed) entries)
                    = Dict.keys result ++ [Feed.name feed]).
    { rewrite DictFacts.keys_set.
      destruct (decide (Feed.name feed ∈ Dict.keys result)) as [Hin|_];
        [| reflexivity].
      exfalso. apply NoDup_app in Hnd as (_ & Hdisj & _).
      apply (Hdisj _ Hin). left. }
    assert (Hnd' : NoDup (Dict.keys (Dict.set result (Feed.name feed) entries)
                          ++ feed_names feeds)).
    { rewrite Hkeys, <- app_assoc. exact Hnd. }
    rewrite (IH _ _ _ _ Hnd' Hrun), Hkeys, <- app_assoc. reflexivity.
Qed.
End FetchAllMore.

(** X7. When a feed cannot be fetched and the feeds before it can,
    [fetch_all] raises the exception of that feed, dry run or not, without
    writing a file and without adding an event to the trace. *)
Theorem fetch_all_raises_at_first_failing_feed `{Externals}
    (dry_run : bool) (st : Runner.state)
    (before : list Feed.t) (feed : Feed.t) (after : list Feed.t) (e : exn) :
  Runner.feeds (Runner.self st) = before ++ feed :: after ->
  fetchable before ->
  fetched_entries feed = Raise e ->
  fst (Runner.fetch_all dry_run st) = Raise e
  /\ Runner.files (snd (Runner.fetch_all dry_run st)) = Runner.files st
  /\ Runner.trace (snd (Runner.fetch_all dry_run st)) = Runner.trace st.
Proof.
  intros Hfeeds Hbefore Hfeed.
  pose proof (loop_raises_at dry_run before feed after e Hbefore Hfeed [] st) as Hraise.
  rewrite fetch_all_eq, Hfeeds.
  destruct (for_each _ _ _ st) as [[result|e'] st1] eqn:Hloop; simpl in Hraise;
    [discriminate |].
  injection Hraise as ->.
  destruct (loop_outside _ _ _ _ _ _ Hloop) as [(Hfiles & Htrace & _) _].
  simpl. auto.
Qed.

(** X8. Whatever its outcome, [fetch_all] never shortens or reorders a list
    of the cache: the list under every key is the beginning of the list
    found under that key afterwards; and a key that is the name of no
    configured feed keeps its list as it is. *)
Theorem fetch_all_cache_only_grows `{Externals} (dry_run : bool) (st : Runner.state) :
  cache_extends (cache_of st) (cache_of (snd (Runner.fetch_all dry_run st)))
  /\ forall k,
       k ∉ feed_names (Runner.feeds (Runner.self st)) ->
       Dict.get (cache_of (snd (Runner.fetch_all dry_run st))) k
       = Dict.get (cache_of st) k.
Proof.
  rewrite fetch_all_eq.
  destruct (for_each _ _ _ st) as [r st1] eqn:Hloop.
  apply loop_extends in Hloop.
  destruct r as [result|e]; [destruct dry_run |]; exact Hloop.
Qed.

(** X9. When the feed names are pairwise distinct and the feeds can be
    fetched, the keys of the mapping [fetch_all] returns are the names of
    the feeds in the order of the configuration, which is the order in
    which [main] goes through the mapping. *)
Theorem fetch_all_keys_in_configuration_order `{Externals}
    (dry_run : bool) (st : Runner.state) :
  NoDup (feed_names (Runner.feeds (Runner.self st))) ->
  fetchable (Runner.feeds (Runner.self st)) ->
  exists result st',
    Runner.fetch_all dry_run st = (Ok result, st')
    /\ Dict.keys (Dict.items result) = feed_names (Runner.feeds (Runner.self st)).
Proof.
  intros Hnd Hfetch.
  destruct (fetch_all_ok dry_run st Hfetch) as (result & st1 & Hloop & Hall).
  eexists result, _. split; [exact Hall |].
  exact (loop_result_keys dry_run (Runner.feeds (Runner.self st)) [] st result st1
           Hnd Hloop).
Qed.

(** ** More on [send_mails] *)

Lemma sent_mails_app ops1 ops2 :
  sent_mails (ops1 ++ ops2) = sent_mails ops1 ++ sent_mails ops2.
Proof.
  induction ops1 as [|op ops1 IH]; [reflexivity |].
  destruct op; simpl; rewrite IH; reflexivity.
Qed.

Lemma connections_app ops1 ops2 :
  connections (ops1 ++ ops2) = connections ops1 + connections ops2.
Proof.
  induction ops1 as [|op ops1 IH]; [reflexivity |].
  destruct op; simpl; rewrite IH; reflexivity.
Qed.

(** The calls of a list go through one by one; they all do when the
    outcome is a return, and the only exception is the one of the server. *)
Lemma exec_ops_outcome `{Externals} ops :
  forall st r st',
    exec_ops ops st = (r, st') ->
    exists done rest,
      ops = done ++ rest
      /\ st' = run_ops done st
      /\ match r with
         | Ok _ => rest = []
         | Raise e => e = SMTPException /\ rest <> []
         end.
Proof.
  induction ops as [|op ops IH]; intros st r st' Hrun.
  - inversion Hrun; subst. exists [], []. split; [reflexivity |].
    split; [| reflexivity]. unfold run_ops. simpl. rewrite app_nil_r.
    destruct st'; reflexivity.
  - rewrite exec_ops_cons in Hrun. unfold Runner.smtp in Hrun.
    destruct (smtp_accepts (Runner.trace st) op).
    + apply IH in Hrun as (done & rest & -> & -> & Hr).
      exists (op :: done), rest. split; [reflexivity |]. split; [| exact Hr].
      unfold run_ops. simpl. rewrite <- app_assoc. reflexivity.
    + inversion Hrun; subst. exists [], (op :: ops). split; [reflexivity |].
      split; [| split; [reflexivity | discriminate]].
      unfold run_ops. simpl. rewrite app_nil_r. destruct st'; reflexivity.
Qed.

(** X10. Whatever the outcome of [send_mails], the mails that went out are
    the first mails of the list, in order and each once, over at most one
    connection; they are all the mails when it returns.  It raises either
    what the conversion of the port raises, before any call on the server,
    or the exception of the server. *)
Theorem send_mails_sends_first_mails `{Externals} (mails : list string) (st : Runner.state) :
  exists done,
    snd (Runner.send_mails mails st) = run_ops done st
    /\ sent_mails done `prefix_of` mails
    /\ connections done <= 1
    /\ match fst (Runner.send_mails mails st) with
       | Ok _ => sent_mails done = mails
       | Raise e =>
           (py_int (MailConfig.smtp_port (Runner.mail_config (Runner.self st))) = Raise e
            /\ done = [])
           \/ e = SMTPException
       end.
Proof.
  destruct mails as [|mail mails].
  - exists []. simpl. split; [| split; [reflexivity | split; [lia | reflexivity]]].
    unfold run_ops. simpl. rewrite app_nil_r. destruct st; reflexivity.
  - rewrite send_mails_eq by discriminate.
    destruct (py_int _) as [port|e] eqn:Hport.
    + destruct (exec_ops _ st) as [r st'] eqn:Hrun.
      apply exec_ops_outcome in Hrun as (done & rest & Hops & -> & Hr).
      exists done. simpl. split; [reflexivity |].
      pose proof (smtp_session_sent (Runner.mail_config (Runner.self st)) port
                    (mail :: mails)) as Hsent.
      pose proof (smtp_session_connections (Runner.mail_config (Runner.self st)) port
                    (mail :: mails)) as Hconn.
      rewrite Hops, sent_mails_app in Hsent. rewrite Hops, connections_app in Hconn.
      split; [| split; [lia |]].
      * exists (sent_mails rest). symmetry. exact Hsent.
      * destruct r as [[]|e].
        -- subst rest. simpl in Hsent. rewrite app_nil_r in Hsent. exact Hsent.
        -- right. apply Hr.
    + exists []. simpl. split; [| split; [apply prefix_nil | split; [lia |]]].
      * unfold run_ops. simpl. rewrite app_nil_r. destruct st; reflexivity.
      * left. split; reflexivity.
Qed.

Lemma smtp_session_encryption (cfg : MailConfig.t) (port : Z) (mails : list string) :
  exists after_greeting,
    smtp_session cfg port mails
    = (if String.eqb (MailConfig.smtp_protocol cfg) "ssl"
       then smtplib_SMTP_SSL (MailConfig.smtp_host cfg) port
       else smtplib_SMTP (MailConfig.smtp_host cfg) port)
      :: conn_ehlo :: after_greeting
    /\ (conn_starttls ∈ after_greeting <-> MailConfig.smtp_protocol cfg = "tls")
    /\ (MailConfig.smtp_protocol cfg = "tls" ->
        exists after_upgrade, after_greeting = conn_starttls :: after_upgrade).
Proof.
  unfold smtp_session.
  assert (Hno : forall f t,
            conn_starttls ∉ (conn_sendmail f t <$> mails) ++ [conn_quit]).
  { intros f t Hin. apply elem_of_app in Hin as [Hin|Hin].
    - apply list_elem_of_fmap in Hin as (mail & Heq & _). discriminate.
    - apply list_elem_of_singleton in Hin. discriminate. }
  eexists. split; [reflexivity |].
  destruct (String.eqb_spec (MailConfig.smtp_protocol cfg) "tls") as [Htls|Hntls].
  - split.
    + split; [intros _; exact Htls |]. intros _. simpl. left.
    + intros _. eexists. reflexivity.
  - split; [| intros Htls; contradiction].
    split; [| intros Htls; contradiction].
    intros Hin. exfalso. simpl in Hin.
    apply elem_of_cons in Hin as [Heq|Hin]; [discriminate |].
    exact (Hno _ _ Hin).
Qed.

(** X11. When [send_mails] returns after sending mails, the connection was
    made with [SMTP_SSL] if the protocol is [ssl] and with [SMTP] otherwise,
    the greeting came next, and [starttls] was called exactly when the
    protocol is [tls], right after the greeting: any other protocol gives a
    session without encryption. *)
Theorem send_mails_encryption_follows_protocol `{Externals}
    (mails : list string) (st st' : Runner.state) :
  mails <> [] ->
  Runner.send_mails mails st = (Ok tt, st') ->
  let cfg := Runner.mail_config (Runner.self st) in
  exists port after_greeting,
    Runner.trace st'
    = Runner.trace st
      ++ (Smtp <$> (if String.eqb (MailConfig.smtp_protocol cfg) "ssl"
                    then smtplib_SMTP_SSL (MailConfig.smtp_host cfg) port
                    else smtplib_SMTP (MailConfig.smtp_host cfg) port)
                   :: conn_ehlo :: after_greeting)
    /\ (conn_starttls ∈ after_greeting <-> MailConfig.smtp_protocol cfg = "tls")
    /\ (MailConfig.smtp_protocol cfg = "tls" ->
        exists after_upgrade, after_greeting = conn_starttls :: after_upgrade).
Proof.
  intros Hne Hsend cfg. rewrite send_mails_eq in Hsend by exact Hne.
  fold cfg in Hsend.
  destruct (py_int (MailConfig.smtp_port cfg)) as [port|e]; [| discriminate].
  apply exec_ops_outcome in Hsend as (done & rest & Hops & -> & ->).
  rewrite app_nil_r in Hops. subst done.
  destruct (smtp_session_encryption cfg port mails) as (after & Hsession & Htls & Hup).
  exists port, after. rewrite <- Hsession. split; [reflexivity |].
  split; assumption.
Qed.

(** ** The text of a mail *)




(** ** From [fetch_all] to the mails *)

Section Composition.
Context `{Externals}.


(** A mail only depends on the mail configuration and the feeds of the
    runner. *)
Lemma create_mail_text_same_feeds (self self' : Runner.t) feed_name entries :
  Runner.mail_config self' = Runner.mail_config self ->
  Runner.feeds self' = Runner.feeds self ->
  Runner.create_mail_text self' feed_name entries
  = Runner.create_mail_text self feed_name entries.
Proof.
  intros Hcfg Hfeeds. unfold Runner.create_mail_text, Runner.get_feed_by_name.
  rewrite Hcfg, Hfeeds. reflexivity.
Qed.


Lemma fetch_all_outside dry_run st r st' :
  Runner.fetch_all dry_run st = (r, st') ->
  Runner.mail_config (Runner.self st') = Runner.mail_config (Runner.self st)
  /\ Runner.feeds (Runner.self st') = Runner.feeds (Runner.self st)
  /\ Runner.feeds_cache_path (Runner.self st') = Runner.feeds_cache_path (Runner.self st).
Proof.
  rewrite fetch_all_eq.
  destruct (for_each _ _ _ st) as [r1 st1] eqn:Hloop.
  apply loop_outside in Hloop as [(_ & _ & Hcfg & Hfeeds & Hpath) _].
  destruct r1 as [result|e]; [destruct dry_run |]; intros Heq;
    inversion Heq; subst; auto.
Qed.

End Composition.


(** ** More on [main] *)

Section MainMore.
Context `{Externals}.

Lemma printed_nil (st : Runner.state) : printed [] st = st.
Proof. unfold printed. simpl. rewrite app_nil_r. destruct st; reflexivity. Qed.

Lemma printed_app (lines1 lines2 : list string) (st : Runner.state) :
  printed lines2 (printed lines1 st) = printed (lines1 ++ lines2) st.
Proof.
  unfold printed. cbn [Runner.self Runner.files Runner.trace].
  rewrite fmap_app, app_assoc. reflexivity.
Qed.

(** One turn of the loop of [main]. *)
Lemma main_body_eq dry_run mail_reports feed_name entries st :
  main_body dry_run mail_reports (feed_name, entries) st
  = match entries with
    | [] => (Ok mail_reports, st)
    | _ :: _ =>
        match Runner.create_mail_text (Runner.self st) feed_name entries with
        | Ok mail_report =>
            if dry_run
            then (Ok mail_reports,
                  printed [ "New mail report for " +:+ dq +:+ feed_name +:+ dq +:+ ":";
                            mail_report ] st)
            else (Ok (mail_reports ++ [mail_report]), st)
        | Raise e => (Raise e, st)
        end
    end.
Proof.
  unfold main_body. destruct entries as [|entry entries]; [reflexivity |].
  cbn [length Nat.eqb]. unfold bind at 1. unfold get_state at 1.
  unfold bind at 1. unfold lift at 1.
  destruct (Runner.create_mail_text _ _ _) as [mail_report|e]; [| reflexivity].
  destruct dry_run; cbn [negb]; [| reflexivity].
  unfold bind, Runner.print, modify, ret, printed.
  cbn [Runner.self Runner.files Runner.trace fmap list_fmap].
  rewrite <- app_assoc. reflexivity.
Qed.



(** Whatever happens in it, the loop of a dry run only prints, and keeps the
    list of reports as it is. *)
Lemma main_loop_dry_any (items : list (string * list FeedEntry.t)) :
  forall mail_reports st r st',
    for_each (main_body true) items mail_reports st = (r, st') ->
    exists lines,
      st' = printed lines st
      /\ match r with Ok mail_reports' => mail_reports' = mail_reports | Raise _ => True end.
Proof.
  induction items as [|[feed_name entries] items IH]; intros mail_reports st r st' Hrun.
  - inversion Hrun; subst. exists []. rewrite printed_nil. split; reflexivity.
  - cbn [for_each] in Hrun. unfold bind at 1 in Hrun. rewrite main_body_eq in Hrun.
    destruct entries as [|entry entries]; [exact (IH _ _ _ _ Hrun) |].
    destruct (Runner.create_mail_text _ _ _) as [mail_report|e].
    + apply IH in Hrun as (lines & -> & Hr). eexists. rewrite printed_app.
      split; [reflexivity | exact Hr].
    + inversion Hrun; subst. exists []. rewrite printed_nil. split; [reflexivity | exact I].
Qed.

Lemma fetch_all_dry_state (st : Runner.state) : snd (Runner.fetch_all true st) = st.
Proof.
  rewrite fetch_all_eq.
  destruct (for_each _ _ _ st) as [r st1] eqn:Hloop.
  apply loop_outside in Hloop as [_ Hdry].
  destruct r; simpl; apply Hdry; reflexivity.
Qed.


End MainMore.

(** X14. A dry run of [main] only prints: whatever its outcome, it ends
    with the runner and the files it started with, and with a trace that
    has grown by printed lines alone; no file is written and no call is
    made on the server. *)
Theorem main_dry_run_only_prints `{Externals} (st : Runner.state) :
  exists lines, snd (main true st) = printed lines st.
Proof.
  unfold main. unfold bind at 1.
  pose proof (fetch_all_dry_state st) as Hstate.
  destruct (Runner.fetch_all true st) as [[new_entries|e] st1]; simpl in Hstate;
    subst st1.
  - unfold bind at 1.
    destruct (for_each (main_body true) (Dict.items new_entries) [] st)
      as [r st2] eqn:Hloop.
    apply main_loop_dry_any in Hloop as (lines & -> & Hr).
    exists lines. destruct r as [mail_reports|e]; [| reflexivity].
    subst mail_reports. reflexivity.
  - exists []. rewrite printed_nil. reflexivity.
Qed.



(** ** Runs that find nothing new *)

Section NothingNew.
Context `{Externals}.

Lemma unseen_all_cached (known_ids : list string) (entries : list FeedEntry.t) :
  (forall entry, entry ∈ entries -> FeedEntry.id entry ∈ known_ids) ->
  unseen known_ids entries = [].
Proof.
  unfold unseen. induction entries as [|entry entries IH]; intros Hall; [reflexivity |].
  rewrite filter_cons_False.
  - apply IH. intros e He. apply Hall. right. exact He.
  - intros Hnin. apply Hnin, Hall. left.
Qed.

Lemma set_same {V} (d : dict V) (k : string) (v : V) :
  Dict.get d k = Some v -> Dict.set d k v = d.
Proof.
  induction d as [|[k' v'] d IH]; simpl; [discriminate |].
  destruct (String.eqb_spec k' k) as [->|Hne].
  - intros Heq. injection Heq as ->. reflexivity.
  - intros Hget. rewrite (IH Hget). reflexivity.
Qed.

Lemma set_all_empty (d : dict (list FeedEntry.t)) (k : string) :
  Forall (fun item => snd item = []) d ->
  Forall (fun item => snd item = []) (Dict.set d k []).
Proof.
  induction 1 as [|[k' v'] d Hhead Htail IH]; simpl.
  - constructor; [reflexivity | constructor].
  - destruct (String.eqb k' k); constructor; first [reflexivity | assumption].
Qed.

Lemma step_nothing_cached_ids dry_run feed st other :
  cached_ids (cache_of (step_state dry_run feed [] st)) other
  = cached_ids (cache_of st) other.
Proof.
  destruct dry_run; [reflexivity |].
  destruct (decide (Feed.name other = Feed.name feed)) as [Heq|Hne].
  - unfold cached_ids at 1. unfold Dict.get_default. rewrite Heq.
    rewrite step_state_cache_feed. simpl. rewrite app_nil_r.
    unfold cached_ids. rewrite Heq. reflexivity.
  - apply (step_cached_ids_other false). exact Hne.
Qed.

Lemma step_nothing_same dry_run feed st :
  is_Some (Dict.get (cache_of st) (Feed.name feed)) ->
  step_state dry_run feed [] st = st.
Proof.
  intros [ids Hids]. destruct dry_run; [reflexivity |].
  unfold step_state, cached_ids, Dict.get_default. rewrite Hids.
  cbn [Runner.append_ids]. rewrite (set_same _ _ _ Hids).
  destruct st as [[cfg feeds cache path] files trace]. reflexivity.
Qed.

Lemma loop_nothing_new dry_run feeds :
  forall result st,
    nothing_new (cache_of st) feeds ->
    Forall (fun item => snd item = []) result ->
    exists result' st',
      for_each (Runner.fetch_all_body dry_run) feeds result st = (Ok result', st')
      /\ Forall (fun item => snd item = []) result'
      /\ (forall feed, cached_ids (cache_of st') feed = cached_ids (cache_of st) feed)
      /\ ((forall feed, feed ∈ feeds ->
             is_Some (Dict.get (cache_of st) (Feed.name feed))) ->
          st' = st).
Proof.
  induction feeds as [|feed feeds IH]; intros result st Hnew Hempty.
  - exists result, st. repeat split; auto.
  - cbn [for_each]. unfold bind at 1. rewrite fetch_all_body_eq, fetch_eq.
    destruct (Hnew feed) as (fetched & Hfetched & Hcached); [left |].
    rewrite Hfetched. cbn [rbind]. rewrite (unseen_all_cached _ _ Hcached).
    destruct (IH (Dict.set result (Feed.name feed) [])
                 (step_state dry_run feed [] st))
      as (result' & st' & Hrun & Hempty' & Hids & Hsame).
    + intros other Hother. destruct (Hnew other) as (fetched' & Hf & Hc); [right; exact Hother |].
      exists fetched'. split; [exact Hf |]. rewrite step_nothing_cached_ids. exact Hc.
    + apply set_all_empty. exact Hempty.
    + exists result', st'. split; [exact Hrun |]. split; [exact Hempty' |]. split.
      * intros other. rewrite Hids. apply step_nothing_cached_ids.
      * intros Hkeys.
        assert (Hstep : step_state dry_run feed [] st = st)
          by (apply step_nothing_same, Hkeys; left).
        rewrite Hstep in Hsame. apply Hsame.
        intros other Hother. apply Hkeys. right. exact Hother.
Qed.

Lemma main_loop_empty dry_run (items : list (string * list FeedEntry.t)) :
  Forall (fun item => snd item = []) items ->
  forall mail_reports st,
    for_each (main_body dry_run) items mail_reports st = (Ok mail_reports, st).
Proof.
  induction 1 as [|[feed_name entries] items Hhead _ IH]; intros mail_reports st.
  - reflexivity.
  - cbn [for_each]. unfold bind at 1. rewrite main_body_eq.
    simpl in Hhead. subst entries. apply IH.
Qed.
End NothingNew.

(** X17. When every feed can be fetched and holds nothing but entries whose
    identifier is already cached for it, [main] returns 0 without composing
    a mail, printing a line or calling the server: it ends in the state
    [fetch_all] leaves, whose trace holds the write of the cache file in a
    real run and nothing in a dry run, and every feed is reported with the
    empty list. *)
Theorem main_with_nothing_new `{Externals} (dry_run : bool) (st : Runner.state) :
  nothing_new (cache_of st) (Runner.feeds (Runner.self st)) ->
  let st' := snd (Runner.fetch_all dry_run st) in
  main dry_run st = (Ok 0%Z, st')
  /\ Runner.trace st'
     = Runner.trace st
       ++ (if dry_run then []
           else [FileWrite (Runner.feeds_cache_path (Runner.self st))
                   (json_dumps (cache_of st'))])
  /\ exists new_entries,
       fst (Runner.fetch_all dry_run st) = Ok new_entries
       /\ Forall (fun item => snd item = []) (Dict.items new_entries).
Proof.
  intros Hnew st'.
  destruct (loop_nothing_new dry_run _ [] st Hnew (List.Forall_nil _))
    as (result & st1 & Hloop & Hempty & _ & _).
  assert (Hall : Runner.fetch_all dry_run st
                 = (Ok result, if dry_run then st1 else persisted st1)).
  { rewrite fetch_all_eq, Hloop. reflexivity. }
  destruct (loop_outside _ _ _ _ _ _ Hloop) as [(_ & Htrace & _ & _ & Hpath) Hdry].
  subst st'. rewrite Hall. cbn [fst snd]. split; [| split].
  - unfold main. unfold bind at 1. rewrite Hall. unfold bind at 1.
    rewrite (main_loop_empty dry_run _ Hempty). reflexivity.
  - destruct dry_run.
    + rewrite (Hdry eq_refl), app_nil_r. reflexivity.
    + unfold persisted. cbn [Runner.trace Runner.self]. rewrite Htrace, Hpath.
      reflexivity.
  - exists result. split; [reflexivity | exact Hempty].
Qed.

(** X18. After a real run of [fetch_all] over feeds with pairwise distinct
    names that can be fetched, nothing is new any more: a second real run
    over the same sources reports the empty list for every feed and leaves
    the cache mapping exactly as the first run left it. *)
Theorem second_run_finds_nothing_new `{Externals} (st : Runner.state) :
  NoDup (feed_names (Runner.feeds (Runner.self st))) ->
  fetchable (Runner.feeds (Runner.self st)) ->
  exists new_entries st1 new_entries' st2,
    Runner.fetch_all false st = (Ok new_entries, st1)
    /\ nothing_new (cache_of st1) (Runner.feeds (Runner.self st1))
    /\ Runner.fetch_all false st1 = (Ok new_entries', st2)
    /\ Forall (fun item => snd item = []) (Dict.items new_entries')
    /\ cache_of st2 = cache_of st1.
Proof.
  intros Hnd Hfetch.
  destruct (fetch_all_ok false st Hfetch) as (result & st0 & Hloop & Hall).
  destruct (fetch_all_outside _ _ _ _ Hall) as (_ & Hfeeds & _).
  destruct (loop_values _ _ _ _ _ _ Hnd Hloop) as [_ Hvalues].
  destruct (loop_keys _ _ _ _ _ _ Hloop) as (_ & _ & Hkeys).
  set (st1 := persisted st0) in *.
  assert (Hnew : nothing_new (cache_of st1) (Runner.feeds (Runner.self st1))).
  { rewrite Hfeeds. intros feed Hfeed.
    destruct (Hvalues feed Hfeed) as (fetched & Hfetched & _ & Hcache).
    specialize (Hcache eq_refl). exists fetched. split; [exact Hfetched |].
    intros entry Hentry. unfold cached_ids at 1. unfold Dict.get_default.
    change (cache_of st1) with (cache_of st0). rewrite Hcache.
    apply elem_of_app.
    destruct (decide (FeedEntry.id entry ∈ cached_ids (cache_of st) feed))
      as [Hin|Hnin]; [left; exact Hin | right].
    apply list_elem_of_fmap. exists entry. split; [reflexivity |].
    apply list_elem_of_filter. split; assumption. }
  destruct (loop_nothing_new false _ [] st1 Hnew (List.Forall_nil _))
    as (result' & st2 & Hloop' & Hempty & _ & Hsame).
  assert (Hst2 : st2 = st1).
  { apply Hsame. rewrite Hfeeds. intros feed Hfeed.
    apply (Hkeys feed Hfeed). reflexivity. }
  subst st2.
  exists result, st1, result', (persisted st1).
  split; [exact Hall |]. split; [exact Hnew |]. split.
  - rewrite fetch_all_eq, Hloop'. reflexivity.
  - split; [exact Hempty | reflexivity].
Qed.

(** ** The further properties on the concrete installation *)

Lemma get_feed_by_name_finds_each_feed_witness :
  NoDup (feed_names (Runner.feeds demo_runner))
  /\ demo_mrs ∈ Runner.feeds demo_runner
  /\ Runner.get_feed_by_name demo_runner (Feed.name demo_mrs) = Some demo_mrs.
Proof.
  assert (Hnd : NoDup (feed_names (Runner.feeds demo_runner))) by by_decision.
  assert (Hin : demo_mrs ∈ Runner.feeds demo_runner) by (simpl; right; left).
  split; [exact Hnd |]. split; [exact Hin |].
  exact (get_feed_by_name_finds_each_feed demo_runner demo_mrs Hnd Hin).
Defined.

Lemma init_builds_runner_from_files_witness :
  @Runner.init (demo_externals true) demo_files "config.yaml" "cache.json"
  = Ok demo_runner
  /\ exists config_text yaml_config raw_smtp raw_feeds cache_text,
       demo_files !! "config.yaml" = Some config_text
       /\ @yaml_safe_load (demo_externals true) config_text = Ok yaml_config
       /\ yaml_smtp yaml_config = Some raw_smtp
       /\ MailConfig.from_config raw_smtp = Ok (Runner.mail_config demo_runner)
       /\ yaml_feeds yaml_config = Some raw_feeds
       /\ Forall2 feed_of_item (Runner.feeds demo_runner) (Dict.items raw_feeds)
       /\ demo_files !! "cache.json" = Some cache_text
       /\ @json_loads (demo_externals true) cache_text
          = Ok (Runner.feeds_cache demo_runner)
       /\ Runner.feeds_cache_path demo_runner = "cache.json".
Proof.
  assert (Hinit : @Runner.init (demo_externals true) demo_files "config.yaml"
                    "cache.json" = Ok demo_runner)
    by reflexivity.
  split; [exact Hinit |].
  exact (@init_builds_runner_from_files (demo_externals true) demo_files
           "config.yaml" "cache.json" demo_runner Hinit).
Defined.

Lemma fetch_all_raises_at_first_failing_feed_witness :
  Runner.feeds (Runner.self demo_state) = [demo_issues] ++ demo_mrs :: []
  /\ @fetchable demo_broken_externals [demo_issues]
  /\ @fetched_entries demo_broken_externals demo_mrs = Raise NetworkError
  /\ fst (@Runner.fetch_all demo_broken_externals false demo_state)
     = Raise NetworkError
  /\ Runner.files (snd (@Runner.fetch_all demo_broken_externals false demo_state))
     = Runner.files demo_state
  /\ Runner.trace (snd (@Runner.fetch_all demo_broken_externals false demo_state))
     = Runner.trace demo_state.
Proof.
  assert (Hfeeds : Runner.feeds (Runner.self demo_state)
                   = [demo_issues] ++ demo_mrs :: [])
    by reflexivity.
  assert (Hbefore : @fetchable demo_broken_externals [demo_issues])
    by all_fetchable.
  assert (Hfeed : @fetched_entries demo_broken_externals demo_mrs
                  = Raise NetworkError)
    by reflexivity.
  split; [exact Hfeeds |]. split; [exact Hbefore |]. split; [exact Hfeed |].
  exact (@fetch_all_raises_at_first_failing_feed demo_broken_externals false
           demo_state [demo_issues] demo_mrs [] NetworkError Hfeeds Hbefore Hfeed).
Defined.

Lemma fetch_all_keys_in_configuration_order_witness :
  NoDup (feed_names (Runner.feeds (Runner.self demo_state)))
  /\ @fetchable (demo_externals true) (Runner.feeds (Runner.self demo_state))
  /\ exists result st',
       @Runner.fetch_all (demo_externals true) false demo_state = (Ok result, st')
       /\ Dict.keys (Dict.items result)
          = feed_names (Runner.feeds (Runner.self demo_state)).
Proof.
  assert (Hnd : NoDup (feed_names (Runner.feeds (Runner.self demo_state))))
    by by_decision.
  assert (Hfetch : @fetchable (demo_externals true)
                     (Runner.feeds (Runner.self demo_state)))
    by all_fetchable.
  split; [exact Hnd |]. split; [exact Hfetch |].
  exact (@fetch_all_keys_in_configuration_order (demo_externals true) false
           demo_state Hnd Hfetch).
Defined.

Lemma send_mails_encryption_follows_protocol_witness :
  ["first"; "second"] <> []
  /\ @Runner.send_mails (demo_externals true) ["first"; "second"] demo_state
     = (Ok tt,
        run_ops (smtp_session demo_mail_config 587 ["first"; "second"]) demo_state)
  /\ exists port after_greeting,
       Runner.trace
         (run_ops (smtp_session demo_mail_config 587 ["first"; "second"]) demo_state)
       = Runner.trace demo_state
         ++ (Smtp <$> (if String.eqb (MailConfig.smtp_protocol demo_mail_config) "ssl"
                       then smtplib_SMTP_SSL (MailConfig.smtp_host demo_mail_config) port
                       else smtplib_SMTP (MailConfig.smtp_host demo_mail_config) port)
                      :: conn_ehlo :: after_greeting)
       /\ (conn_starttls ∈ after_greeting
           <-> MailConfig.smtp_protocol demo_mail_config = "tls")
       /\ (MailConfig.smtp_protocol demo_mail_config = "tls" ->
           exists after_upgrade, after_greeting = conn_starttls :: after_upgrade).
Proof.
  assert (Hne : ["first"; "second"] <> []) by discriminate.
  assert (Hsend : @Runner.send_mails (demo_externals true) ["first"; "second"]
                    demo_state
                  = (Ok tt,
                     run_ops (smtp_session demo_mail_config 587 ["first"; "second"])
                       demo_state))
    by reflexivity.
  split; [exact Hne |]. split; [exact Hsend |].
  exact (@send_mails_encryption_follows_protocol (demo_externals true)
           ["first"; "second"] demo_state _ Hne Hsend).
Defined.





Lemma main_with_nothing_new_witness :
  @nothing_new (demo_externals true) (cache_of demo_seen_state)
    (Runner.feeds (Runner.self demo_seen_state))
  /\ @main (demo_externals true) false demo_seen_state
     = (Ok 0%Z, snd (@Runner.fetch_all (demo_externals true) false demo_seen_state))
  /\ Runner.trace (snd (@Runner.fetch_all (demo_externals true) false demo_seen_state))
     = Runner.trace demo_seen_state
       ++ [FileWrite (Runner.feeds_cache_path (Runner.self demo_seen_state))
             (demo_json_dumps
                (cache_of
                   (snd (@Runner.fetch_all (demo_externals true) false
                           demo_seen_state))))]
  /\ exists new_entries,
       fst (@Runner.fetch_all (demo_externals true) false demo_seen_state)
       = Ok new_entries
       /\ Forall (fun item => snd item = []) (Dict.items new_entries).
Proof.
  assert (Hnew : @nothing_new (demo_externals true) (cache_of demo_seen_state)
                   (Runner.feeds (Runner.self demo_seen_state))).
  { intros feed Hin.
    apply elem_of_cons in Hin as [->|Hin];
      [| apply elem_of_cons in Hin as [->|Hin]; [| inversion Hin]].
    - exists demo_entries. split; [reflexivity |].
      intros entry Hentry.
      apply elem_of_cons in Hentry as [->|Hentry]; [by_decision |].
      apply elem_of_cons in Hentry as [->|Hentry]; [by_decision |].
      apply elem_of_cons in Hentry as [->|Hentry]; [by_decision | inversion Hentry].
    - exists []. split; [reflexivity |].
      intros entry Hentry. inversion Hentry. }
  split; [exact Hnew |].
  exact (@main_with_nothing_new (demo_externals true) false demo_seen_state Hnew).
Defined.

Lemma second_run_finds_nothing_new_witness :
  NoDup (feed_names (Runner.feeds (Runner.self demo_state)))
  /\ @fetchable (demo_externals true) (Runner.feeds (Runner.self demo_state))
  /\ exists new_entries st1 new_entries' st2,
       @Runner.fetch_all (demo_externals true) false demo_state = (Ok new_entries, st1)
       /\ @nothing_new (demo_externals true) (cache_of st1)
            (Runner.feeds (Runner.self st1))
       /\ @Runner.fetch_all (demo_externals true) false st1 = (Ok new_entries', st2)
       /\ Forall (fun item => snd item = []) (Dict.items new_entries')
       /\ cache_of st2 = cache_of st1.
Proof.
  assert (Hnd : NoDup (feed_names (Runner.feeds (Runner.self demo_state))))
    by by_decision.
  assert (Hfetch : @fetchable (demo_externals true)
                     (Runner.feeds (Runner.self demo_state)))
    by all_fetchable.
  split; [exact Hnd |]. split; [exact Hfetch |].
  exact (@second_run_finds_nothing_new (demo_externals true) demo_state Hnd Hfetch).
Defined.
